(** * fieldLens: sector progression and photo validation, verified

    A shallow embedding of the server routes
    [server/app/routes/whatsapp.py] and [server/app/routes/jobs.py]:
    the sector helpers, the background processor, the WhatsApp webhook,
    the direct upload route and job creation, over a document store
    made of two collections (jobs and photos).

    Modelling conventions.
    - Python [str] is [string]; [str.upper], [str.lower] and [str.strip]
      act on the ASCII range.
    - Python [int] is [Z]; a float payload (azimuth degrees) is carried
      as an opaque [Z].
    - A collection is the list of its documents in natural (insertion)
      order.  [find_one] returns the first match, [update_one] rewrites
      the first match, the positional operator [$] rewrites the first
      matching array element.
    - Job and sector documents have the fields of schemas.py, always
      present: on them the fallbacks [or 0], [or []] and [or ""] of the
      helpers are the identity, [int(...)] of a sector number cannot
      raise, and a missing sector list is the empty list.  The status of
      a job or of a sector is one of the three literals of the schema;
      the status and type of a verdict or of a photo are free strings.
    - A job's [_id] is a [nat]; [str] of an id is injective, so a photo
      stores the same [nat] as its [jobId].
    - Reads and updates of the document store are total.  The writes the
      source guards with [try] (the photo inserts) can fail, as can the
      media download, the blob store, the image decoder and the
      validation pipeline: these are parameters returning [option],
      [None] standing for a raised exception. *)

From stdpp Require Import base option list strings gmap pretty.
From Stdlib Require Import ZArith Ascii String Lia.

Local Open Scope Z_scope.
Local Open Scope string_scope.

(** ** Python string helpers *)

Definition upper_ascii (c : ascii) : ascii :=
  let n := N_of_ascii c in
  if ((97 <=? n) && (n <=? 122))%N then ascii_of_N (n - 32) else c.

Definition lower_ascii (c : ascii) : ascii :=
  let n := N_of_ascii c in
  if ((65 <=? n) && (n <=? 90))%N then ascii_of_N (n + 32) else c.

Fixpoint map_string (f : ascii → ascii) (s : string) : string :=
  match s with
  | EmptyString => EmptyString
  | String c s' => String (f c) (map_string f s')
  end.

Definition upper : string → string := map_string upper_ascii.
Definition lower : string → string := map_string lower_ascii.

(** [x or y] on optional strings: the first operand when it is truthy
    (present and non-empty), else the second. *)
Definition truthy (o : option string) : bool :=
  match o with
  | Some s => if decide (s = "") then false else true
  | None => false
  end.

Definition py_or (o1 o2 : option string) : option string :=
  if truthy o1 then o1 else o2.

(** [x or "literal"]. *)
Definition py_or_str (o : option string) (d : string) : string :=
  if truthy o then default d o else d.

Definition is_space (c : ascii) : bool :=
  let n := N_of_ascii c in
  ((9 <=? n) && (n <=? 13) || (28 <=? n) && (n <=? 32))%N.

Fixpoint lstrip (s : string) : string :=
  match s with
  | EmptyString => EmptyString
  | String c s' => if is_space c then lstrip s' else s
  end.

Fixpoint rstrip (s : string) : string :=
  match s with
  | EmptyString => EmptyString
  | String c s' =>
      match rstrip s' with
      | EmptyString => if is_space c then EmptyString else String c EmptyString
      | r => String c r
      end
  end.

Definition strip (s : string) : string := rstrip (lstrip s).

Fixpoint startswith (p s : string) : bool :=
  match p, s with
  | EmptyString, _ => true
  | String a p', String b s' => if decide (a = b) then startswith p' s' else false
  | String _ _, EmptyString => false
  end.

(** ** Data model (schemas.py and the documents the routes write) *)

Inductive Value :=
  | VStr (s : string)
  | VNum (n : Z)
  | VBool (b : bool).

Definition value_truthy (v : Value) : bool :=
  match v with
  | VStr s => if decide (s = "") then false else true
  | VNum n => if decide (n = 0) then false else true
  | VBool b => b
  end.

(** [Literal["PENDING", "IN_PROGRESS", "DONE"]] of schemas.py, with the
    string each value is stored as. *)
Inductive Status := PENDING | IN_PROGRESS | DONE.

Global Instance Status_eq_dec : EqDecision Status.
Proof. solve_decision. Defined.

Definition status_str (st : Status) : string :=
  match st with
  | PENDING => "PENDING"
  | IN_PROGRESS => "IN_PROGRESS"
  | DONE => "DONE"
  end.

Record SectorProgress := mkSector {
  sector : Z;
  requiredTypes : list string;
  currentIndex : Z;
  status : Status
}.

Record Job := mkJob {
  job_id : nat;
  workerPhone : string;
  siteId : string;
  sectors : list SectorProgress;
  job_status : Status;
  createdAt : option string;
  macId : option Value;
  rsnId : option Value;
  azimuthDeg : option Value
}.

Record Photo := mkPhoto {
  jobId : nat;
  photo_sector : Z;
  photo_type : string;
  s3Key : string;
  s3Url : option string;
  phash : option string;
  ocrText : option string;
  fields : gmap string Value;
  checks : gmap string Value;
  photo_status : option string;
  reason : list string
}.

(** The dict returned by [run_pipeline]; every key is read with [.get]. *)
Record Verdict := mkVerdict {
  v_type : option string;
  v_status : option string;
  v_reason : option (list string);
  v_phash : option string;
  v_ocrText : option string;
  v_fields : option (gmap string Value);
  v_checks : option (gmap string Value)
}.

Record Db := mkDb {
  jobs : list Job;
  photos : list Photo
}.

Definition set_sectors (ss : list SectorProgress) (j : Job) : Job :=
  mkJob (job_id j) (workerPhone j) (siteId j) ss (job_status j)
        (createdAt j) (macId j) (rsnId j) (azimuthDeg j).

Definition set_job_status (st : Status) (j : Job) : Job :=
  mkJob (job_id j) (workerPhone j) (siteId j) (sectors j) st
        (createdAt j) (macId j) (rsnId j) (azimuthDeg j).

(** [{"$set": updates}] on the three rollup keys. *)
Definition set_rollups (updates : gmap string Value) (j : Job) : Job :=
  mkJob (job_id j) (workerPhone j) (siteId j) (sectors j) (job_status j)
        (createdAt j)
        (from_option Some (macId j) (updates !! "macId"))
        (from_option Some (rsnId j) (updates !! "rsnId"))
        (from_option Some (azimuthDeg j) (updates !! "azimuthDeg")).

Definition inc_currentIndex (s : SectorProgress) : SectorProgress :=
  mkSector (sector s) (requiredTypes s) (currentIndex s + 1) (status s).

Definition set_sector_status (st : Status) (s : SectorProgress) : SectorProgress :=
  mkSector (sector s) (requiredTypes s) (currentIndex s) st.

Definition len (s : SectorProgress) : Z := Z.of_nat (List.length (requiredTypes s)).

(** ** Document store operations *)

Section Collection.
Context {A : Type} (P : A → Prop) `{!∀ x, Decision (P x)}.

Definition find_one (coll : list A) : option A :=
  snd <$> list_find P coll.

Definition update_one (f : A → A) (coll : list A) : list A :=
  match list_find P coll with
  | Some (i, _) => alter f i coll
  | None => coll
  end.

(** Position of the last match: [find_one] sorted by descending [_id]. *)
Fixpoint find_last_index (coll : list A) : option nat :=
  match coll with
  | [] => None
  | x :: coll' =>
      match find_last_index coll' with
      | Some i => Some (S i)
      | None => if decide (P x) then Some 0%nat else None
      end
  end.
End Collection.

(** ** Small helpers (sector-aware), whatsapp.py lines 31-78 *)

Definition sector_by_id (sectors : list SectorProgress) (sid : Z)
  : option SectorProgress :=
  find_one (λ s, sector s = sid) sectors.

Definition _current_expected_type_for_sector (job : Job) (sid : Z)
  : option string :=
  match sector_by_id (sectors job) sid with
  | None => None
  | Some sec =>
      let idx := currentIndex sec in
      let req := requiredTypes sec in
      if decide (0 ≤ idx < Z.of_nat (List.length req))
      then req !! Z.to_nat idx
      else None
  end.

(** The test both loops below make: a sector the worker still has to
    address. *)
Definition active (s : SectorProgress) : Prop :=
  upper (status_str (status s)) ≠ "DONE" ∧ currentIndex s < len s.

Global Instance active_dec s : Decision (active s).
Proof. unfold active. apply _. Defined.

Fixpoint pick_active (ss : list SectorProgress) : option Z :=
  match ss with
  | [] => None
  | s :: ss' =>
      if decide (upper (status_str (status s)) ≠ "DONE" ∧ currentIndex s < len s)
      then Some (sector s)
      else pick_active ss'
  end.

Definition _pick_active_sector (job : Job) : option Z :=
  pick_active (sectors job).

Fixpoint all_sectors_done_loop (ss : list SectorProgress) : bool :=
  match ss with
  | [] => true
  | s :: ss' =>
      if decide (upper (status_str (status s)) ≠ "DONE" ∧ currentIndex s < len s)
      then false
      else all_sectors_done_loop ss'
  end.

Definition all_sectors_done (ss : list SectorProgress) : bool :=
  match ss with
  | [] => false
  | _ => all_sectors_done_loop ss
  end.

(** ** Steps shared by the background processor and the direct upload

    Both routes carry the same statements for the duplicate-detection
    query, the rollup of extracted fields, the effective type and the
    sector advance; each is written once here. *)

Definition bytes := list Byte.byte.

(** whatsapp.py lines 161-173 and 480-492. *)
Definition prev_phashes (photos : list Photo) (jid : nat) (sid : Z)
    (expected : option string) : list string :=
  omap (λ p, if truthy (phash p) then phash p else None)
       (filter (λ p, jobId p = jid
                     ∧ photo_sector p = sid
                     ∧ photo_type p = upper (py_or_str expected "")
                     ∧ (photo_status p = Some "PASS"
                        ∨ photo_status p = Some "FAIL"))
               photos).

(** whatsapp.py lines 183-190 and 503-510: the [updates] dict. *)
Definition rollup_updates (fs : gmap string Value) : gmap string Value :=
  let u1 : gmap string Value :=
    match fs !! "macId" with
    | Some v => if value_truthy v then {["macId" := v]} else ∅
    | None => ∅
    end in
  let u2 :=
    match fs !! "rsn" with
    | Some v => if value_truthy v then <["rsnId" := v]> u1 else u1
    | None => u1
    end in
  match fs !! "azimuthDeg" with
  | Some v => <["azimuthDeg" := v]> u2
  | None => u2
  end.

(** whatsapp.py lines 191-192 and 511-512. *)
Definition promote_fields (result : Verdict) (jid : nat) (js : list Job)
  : list Job :=
  let updates := rollup_updates (default ∅ (v_fields result)) in
  if decide (updates = ∅) then js
  else update_one (λ j, job_id j = jid) (set_rollups updates) js.

(** whatsapp.py lines 194 and 519. *)
Definition result_type_of (result : Verdict) (expected : option string)
  : string :=
  upper (py_or_str (py_or (v_type result) expected) "LABELLING").

(** The guard of lines 213-214 and 543. *)
Definition advance_condition (result : Verdict) (expected : option string)
  : Prop :=
  upper (py_or_str (v_status result) "") = "PASS"
  ∧ truthy expected = true
  ∧ Some (result_type_of result expected) = expected.

Global Instance advance_condition_dec result expected :
  Decision (advance_condition result expected).
Proof. unfold advance_condition. apply _. Defined.

(** The filter [{"_id": ..., "sectors.sector": sid}]. *)
Definition job_with_sector (jid : nat) (sid : Z) (j : Job) : Prop :=
  job_id j = jid ∧ Exists (λ s, sector s = sid) (sectors j).

Global Instance job_with_sector_dec jid sid j :
  Decision (job_with_sector jid sid j).
Proof. unfold job_with_sector. apply _. Defined.

(** An update through [sectors.$]: the first array element that matches. *)
Definition update_positional (sid : Z) (f : SectorProgress → SectorProgress)
    (j : Job) : Job :=
  set_sectors (update_one (λ s, sector s = sid) f (sectors j)) j.

(** whatsapp.py lines 215-231 and 544-558: increment, reload, and mark
    the sector DONE when it is exhausted.  Returns the collection and the
    reloaded local [job]; [None] when a reload finds no document, on which
    the next [job.get] raises. *)
Definition advance_sector (js : list Job) (jid : nat) (sid : Z)
  : list Job * option Job :=
  let js1 := update_one (job_with_sector jid sid)
               (update_positional sid inc_currentIndex) js in
  match find_one (λ j, job_id j = jid) js1 with
  | None => (js1, None)
  | Some job1 =>
      match sector_by_id (sectors job1) sid with
      | None => (js1, Some job1)
      | Some sec_doc =>
          if decide (currentIndex sec_doc >= len sec_doc)%Z
          then
            let js2 := update_one (job_with_sector jid sid)
                         (update_positional sid (set_sector_status DONE)) js1 in
            (js2, find_one (λ j, job_id j = jid) js2)
          else (js1, Some job1)
      end
  end.

(** ** Background processor, whatsapp.py lines 132-282 *)

Inductive Outbound :=
  | SectorComplete (all_complete : bool)
  | NextPrompt (verified next_expected : string)
  | Retake (failed_type : string) (reasons : list string) (prompt_type : string).

Inductive BgOutcome :=
  | BgJobMissing
  | BgRaised
  | BgNotify (m : Outbound).

(** The [$set] of lines 201-209 on the placeholder photo. *)
Definition write_verdict (result : Verdict) (result_type : string)
    (p : Photo) : Photo :=
  mkPhoto (jobId p) (photo_sector p) result_type (s3Key p) (s3Url p)
          (v_phash result) (v_ocrText result)
          (default ∅ (v_fields result)) (default ∅ (v_checks result))
          (v_status result) (default [] (v_reason result)).

(** Lines 238-266. *)
Definition compose_message (result : Verdict) (result_type : string)
    (expected : option string) (job : Job) (sid : Z) : Outbound :=
  if decide (upper (py_or_str (v_status result) "") = "PASS")
  then
    match _current_expected_type_for_sector job sid with
    | None =>
        SectorComplete
          (bool_decide (upper (status_str (job_status job)) = "DONE"))
    | Some next_expected => NextPrompt result_type next_expected
    end
  else
    Retake result_type (default [] (v_reason result))
           (py_or_str expected result_type).

(** ** Requests, replies and the scheduled task *)

Record Form := mkForm {
  form_From : option string;
  form_WaId : option string;
  form_NumMedia : option Z;
  form_MediaUrl0 : option string;
  form_MediaContentType0 : option string
}.

Inductive Request :=
  | FormBody (form : Form)
  | JsonBody
  | BadBody.

Inductive Reply :=
  | UnsupportedContentType
  | BadRequest
  | InternalError
  | NoActiveJob
  | AllSectorsComplete
  | Prompt (fallback : string)
  | SendValidImage (fallback : string)
  | CouldNotDownload (fallback : string)
  | CouldNotSave
  | GotThePhoto.

(** The arguments of [background.add_task(_process_and_notify, db, ...)]. *)
Record Task := mkTask {
  task_worker : string;
  task_job : nat;
  task_sector : Z;
  task_hint : string;
  task_data : bytes
}.

Inductive UploadResponse :=
  | DecodeFailed
  | PipelineCrashed
  | SaveFailed
  | UploadRaised
  | Uploaded (job : nat) (sec : Z) (type : string) (st : option string)
             (reasons : list string) (fs : gmap string Value).

Record CreateJob := mkCreateJob {
  cj_workerPhone : string;
  cj_siteId : string;
  cj_sector : Z
}.

Inductive HttpError := Http400 | Http409 | Http500.

(** The store assigns an unused [_id] to an inserted job. *)
Definition fresh_job_id (js : list Job) : nat := S (max_list (job_id <$> js)).

Definition in_flight (j : Job) : Prop :=
  job_status j = PENDING ∨ job_status j = IN_PROGRESS.

Global Instance in_flight_dec j : Decision (in_flight j).
Proof. unfold in_flight. apply _. Defined.

(** The [kind] argument of [new_image_key]: [f"s{sector}_{type.lower()}"]. *)
Definition image_kind (sid : Z) (t : string) : string :=
  "s" +:+ pretty sid +:+ "_" +:+ lower t.

(** The sector block the direct upload creates, lines 445-450 and 459-464. *)
Definition debug_sector_block (sid : Z) : SectorProgress :=
  mkSector sid ["LABELLING"; "AZIMUTH"] 0 IN_PROGRESS.

Section Routes.
Context {Image : Type}.
Context (load_bgr : bytes → option Image)
        (_downscale_for_ocr : Image → Image)
        (run_pipeline : Image → option string → list string → option Verdict)
        (normalize_phone : string → string)
        (_fetch_media : string → option bytes)
        (new_image_key : nat → string → string → string)
        (put_bytes : string → bytes → option string)
        (photo_insert_ok : list Photo → Photo → bool)
        (build_required_types_for_sector : Z → list string)
        (utils_sector_by_id : list SectorProgress → Z → option SectorProgress)
        (utcnow : string).

(** [db.photos.insert_one], which the callers guard with [try]. *)
Definition insert_photo (ps : list Photo) (p : Photo) : option (list Photo) :=
  if photo_insert_ok ps p then Some (ps ++ [p])%list else None.

Definition _process_and_notify (db : Db) (worker_number : string)
    (jid : nat) (active_sector : Z) (result_type_hint : option string)
    (image_bytes : bytes) : Db * BgOutcome :=
  match find_one (λ j, job_id j = jid) (jobs db) with
  | None => (db, BgJobMissing)
  | Some job =>
      let expected := _current_expected_type_for_sector job active_sector in
      match load_bgr image_bytes with
      | None => (db, BgRaised)
      | Some img =>
          let img_small := _downscale_for_ocr img in
          let prev := prev_phashes (photos db) (job_id job) active_sector
                        expected in
          match run_pipeline img_small expected prev with
          | None => (db, BgRaised)
          | Some result =>
              let js1 := promote_fields result (job_id job) (jobs db) in
              let result_type := result_type_of result expected in
              let ps1 :=
                match find_last_index (λ p, jobId p = job_id job) (photos db) with
                | Some i => alter (write_verdict result result_type) i (photos db)
                | None => photos db
                end in
              let '(js2, job2) :=
                if decide (advance_condition result expected)
                then advance_sector js1 (job_id job) active_sector
                else (js1, Some job) in
              match job2 with
              | None => (mkDb js2 ps1, BgRaised)
              | Some job2 =>
                  let '(js3, job3) :=
                    if all_sectors_done (sectors job2)
                    then
                      let js := update_one (λ j, job_id j = job_id job2)
                                  (set_job_status DONE) js2 in
                      (js, find_one (λ j, job_id j = job_id job2) js)
                    else (js2, Some job2) in
                  match job3 with
                  | None => (mkDb js3 ps1, BgRaised)
                  | Some job3 =>
                      (mkDb js3 ps1,
                       BgNotify (compose_message result result_type expected
                                   job3 active_sector))
                  end
              end
          end
      end
  end.

(** ** Webhook, whatsapp.py lines 288-414 *)

Definition whatsapp_webhook (db : Db) (request : Request)
  : Db * Reply * option Task :=
  match request with
  | JsonBody => (db, UnsupportedContentType, None)
  | BadBody => (db, BadRequest, None)
  | FormBody form =>
      let from_param := py_or_str (py_or (form_From form) (form_WaId form)) "" in
      let from_num := normalize_phone from_param in
      let media_count := default 0 (form_NumMedia form) in
      match find_one (λ j, workerPhone j = from_num ∧ in_flight j) (jobs db) with
      | None => (db, NoActiveJob, None)
      | Some job =>
          let '(js1, job1) :=
            if decide (job_status job = PENDING)
            then
              let js := update_one (λ j, job_id j = job_id job)
                          (set_job_status IN_PROGRESS) (jobs db) in
              (js, find_one (λ j, job_id j = job_id job) js)
            else (jobs db, Some job) in
          match job1 with
          | None => (mkDb js1 (photos db), InternalError, None)
          | Some job1 =>
              match _pick_active_sector job1 with
              | None =>
                  (mkDb (update_one (λ j, job_id j = job_id job1)
                           (set_job_status DONE) js1) (photos db),
                   AllSectorsComplete, None)
              | Some active_sector =>
                  let expected :=
                    _current_expected_type_for_sector job1 active_sector in
                  let db1 := mkDb js1 (photos db) in
                  if decide (media_count = 0)
                  then (db1, Prompt (py_or_str expected "LABELLING"), None)
                  else
                    let content_type :=
                      default "" (form_MediaContentType0 form) in
                    match form_MediaUrl0 form with
                    | Some media_url =>
                        if truthy (Some media_url)
                           && startswith "image/" content_type
                        then
                          match _fetch_media media_url with
                          | None =>
                              (db1, CouldNotDownload
                                      (py_or_str expected "LABELLING"), None)
                          | Some data =>
                              let result_hint :=
                                upper (py_or_str expected "LABELLING") in
                              let key :=
                                new_image_key (job_id job1)
                                  (image_kind active_sector result_hint) "jpg" in
                              match put_bytes key data with
                              | None => (db1, CouldNotSave, None)
                              | Some s3_url =>
                                  match
                                    insert_photo (photos db)
                                      (mkPhoto (job_id job1) active_sector
                                         result_hint key (Some s3_url) None
                                         None ∅ ∅ (Some "PROCESSING") [])
                                  with
                                  | None => (db1, CouldNotSave, None)
                                  | Some ps =>
                                      (mkDb js1 ps, GotThePhoto,
                                       Some (mkTask from_num (job_id job1)
                                               active_sector result_hint data))
                                  end
                              end
                          end
                        else
                          (db1, SendValidImage
                                  (py_or_str expected "LABELLING"), None)
                    | None =>
                        (db1, SendValidImage
                                (py_or_str expected "LABELLING"), None)
                    end
              end
          end
      end
  end.

(** An inbound event fully processed: the webhook, then the task it
    scheduled, if any. *)
Definition process_event (db : Db) (request : Request) : Db :=
  match whatsapp_webhook db request with
  | (db1, _, Some t) =>
      fst (_process_and_notify db1 (task_worker t) (task_job t)
             (task_sector t) (Some (task_hint t)) (task_data t))
  | (db1, _, None) => db1
  end.

(** ** Direct upload, whatsapp.py lines 421-571 *)

(** Lines 434-466: find or create the job and make sure the sector
    block exists.  [None] for the local [job] when the reload finds no
    document. *)
Definition debug_ensure_job (js : list Job) (workerPhone0 siteId0 : string)
    (sid : Z) : list Job * option Job :=
  match find_one (λ j, workerPhone j = workerPhone0 ∧ siteId j = siteId0
                       ∧ in_flight j) js with
  | None =>
      let job := mkJob (fresh_job_id js) workerPhone0 siteId0
                       [debug_sector_block sid] IN_PROGRESS
                       None None None None in
      ((js ++ [job])%list, Some job)
  | Some job =>
      match sector_by_id (sectors job) sid with
      | None =>
          let js1 := update_one (λ j, job_id j = job_id job)
                       (λ j, set_sectors
                               (sectors j ++ [debug_sector_block sid])%list j)
                       js in
          (js1, find_one (λ j, job_id j = job_id job) js1)
      | Some _ => (js, Some job)
      end
  end.

Definition debug_upload (db : Db) (workerPhone0 siteId0 : string) (sid : Z)
    (data : bytes) : Db * UploadResponse :=
  let '(js0, job) := debug_ensure_job (jobs db) workerPhone0 siteId0 sid in
  match job with
  | None => (mkDb js0 (photos db), UploadRaised)
  | Some job =>
      let expected := _current_expected_type_for_sector job sid in
      match load_bgr data with
      | None => (mkDb js0 (photos db), DecodeFailed)
      | Some img =>
          let prev := prev_phashes (photos db) (job_id job) sid expected in
          match run_pipeline img expected prev with
          | None => (mkDb js0 (photos db), PipelineCrashed)
          | Some result =>
              let js1 := promote_fields result (job_id job) js0 in
              let result_type := result_type_of result expected in
              let key := new_image_key (job_id job)
                           (image_kind sid result_type) "jpg" in
              match put_bytes key data with
              | None => (mkDb js1 (photos db), SaveFailed)
              | Some s3_url =>
                  match
                    insert_photo (photos db)
                      (mkPhoto (job_id job) sid result_type key (Some s3_url)
                         (v_phash result) (v_ocrText result)
                         (default ∅ (v_fields result))
                         (default ∅ (v_checks result))
                         (v_status result) (default [] (v_reason result)))
                  with
                  | None => (mkDb js1 (photos db), SaveFailed)
                  | Some ps1 =>
                      let '(js2, job2) :=
                        if decide (advance_condition result expected)
                        then advance_sector js1 (job_id job) sid
                        else (js1, Some job) in
                      match job2 with
                      | None => (mkDb js2 ps1, UploadRaised)
                      | Some job2 =>
                          let js3 :=
                            if all_sectors_done (sectors job2)
                            then update_one (λ j, job_id j = job_id job2)
                                   (set_job_status DONE) js2
                            else js2 in
                          (mkDb js3 ps1,
                           Uploaded (job_id job2) sid result_type
                             (v_status result) (default [] (v_reason result))
                             (default ∅ (v_fields result)))
                      end
                  end
              end
          end
      end
  end.

(** ** Job creation, jobs.py lines 117-157

    [_job_to_out] copies the document into the response model; the
    document itself is returned here. *)
Definition create_or_extend_job (db : Db) (payload : CreateJob)
  : Db * (HttpError + Job) :=
  let worker := strip (cj_workerPhone payload) in
  let site := strip (cj_siteId payload) in
  let sid := cj_sector payload in
  let worker_phone := normalize_phone worker in
  if decide (worker = "" ∨ site = "") then (db, inl Http400)
  else
    let base := find_one (λ j, workerPhone j = worker_phone ∧ siteId j = site)
                  (jobs db) in
    let sector_required := build_required_types_for_sector sid in
    let sector_block := mkSector sid sector_required 0 PENDING in
    match base with
    | None =>
        let doc := mkJob (fresh_job_id (jobs db)) worker_phone site
                         [sector_block] PENDING (Some utcnow)
                         None None None in
        (mkDb (jobs db ++ [doc])%list (photos db), inr doc)
    | Some base =>
        match utils_sector_by_id (sectors base) sid with
        | Some _ => (db, inl Http409)
        | None =>
            let js := update_one (λ j, job_id j = job_id base)
                        (λ j, set_sectors (sectors j ++ [sector_block])%list j)
                        (jobs db) in
            match find_one (λ j, job_id j = job_id base) js with
            | Some updated => (mkDb js (photos db), inr updated)
            | None => (mkDb js (photos db), inl Http500)
            end
        end
    end.
End Routes.

(** ** The effect of a run on the job document

    What one run of the shared steps does to the document of the job it
    works on, as a function on that document; the routes are shown below
    to apply it at the position of the job in the collection. *)

(** Increment, then DONE when exhausted: lines 217 and 226-229. *)
Definition advance_block (s : SectorProgress) : SectorProgress :=
  let s1 := inc_currentIndex s in
  if decide (currentIndex s1 >= len s1)%Z
  then set_sector_status DONE s1
  else s1.

Definition promote_job (result : Verdict) (j : Job) : Job :=
  let updates := rollup_updates (default ∅ (v_fields result)) in
  if decide (updates = ∅) then j else set_rollups updates j.

Definition advance_job (result : Verdict) (sid : Z) (j : Job) : Job :=
  let j1 := promote_job result j in
  if decide (advance_condition result (_current_expected_type_for_sector j sid))
  then update_positional sid advance_block j1
  else j1.

Definition job_after (result : Verdict) (sid : Z) (j : Job) : Job :=
  let j2 := advance_job result sid j in
  if all_sectors_done (sectors j2) then set_job_status DONE j2 else j2.

(** ** Statements about a run

    The relation between a sector block before and after a run that the
    advance guard of the code yields. *)
Definition advance_outcome (result : Verdict) (expected : option string)
    (sec sec' : SectorProgress) : Prop :=
  (currentIndex sec' = currentIndex sec + 1 ↔ advance_condition result expected)
  ∧ (¬ advance_condition result expected → sec' = sec)
  ∧ (currentIndex sec ≤ currentIndex sec')%Z
  ∧ (currentIndex sec' ≤ Z.max (currentIndex sec) (len sec'))%Z
  ∧ requiredTypes sec' = requiredTypes sec
  ∧ sector sec' = sector sec.

(** A sector is marked DONE exactly when its cursor is at the end. *)
Definition done_iff_exhausted (s : SectorProgress) : Prop :=
  status s = DONE ↔ currentIndex s = len s.

(** The advance condition in the words of the specification: verdict
    status PASS, expected type known, detected type exactly the expected
    type. *)
Definition spec_advance_condition (result : Verdict) (expected : option string)
  : Prop :=
  v_status result = Some "PASS" ∧ expected ≠ None ∧ v_type result = expected.

(** The cursor of sector [sid] of job [jid], as the routes look it up. *)
Definition sector_index (db : Db) (jid : nat) (sid : Z) : option Z :=
  j ← find_one (λ x, job_id x = jid) (jobs db);
  currentIndex <$> sector_by_id (sectors j) sid.

(** Membership in the duplicate-detection reference set in the words of
    the specification: a non-null hash of a resolved photo of the same
    job, the same sector and the same expected type. *)
Definition spec_reference_hash (ps : list Photo) (jid : nat) (sid : Z)
    (expected : option string) (h : string) : Prop :=
  ∃ p, p ∈ ps
       ∧ jobId p = jid
       ∧ photo_sector p = sid
       ∧ Some (photo_type p) = expected
       ∧ (photo_status p = Some "PASS" ∨ photo_status p = Some "FAIL")
       ∧ phash p = Some h.

(** The placeholder record the webhook inserts for a scheduled task. *)
Definition placeholder_of (t : Task) (key url : string) : Photo :=
  mkPhoto (task_job t) (task_sector t) (task_hint t) key (Some url)
          None None ∅ ∅ (Some "PROCESSING") [].

(** ** A worked example: one job, one sector, one photo in flight *)

Definition ex_sector : SectorProgress :=
  mkSector 1 ["LABELLING"; "AZIMUTH"] 0 PENDING.

Definition ex_job : Job :=
  mkJob 1 "9999" "S1" [ex_sector] IN_PROGRESS None None None None.

Definition ex_placeholder : Photo :=
  mkPhoto 1 1 "LABELLING" "jobs/1/raw/0-s1_labelling.jpg" None None None ∅ ∅
          (Some "PROCESSING") [].

Definition ex_db : Db := mkDb [ex_job] [ex_placeholder].

Definition ex_load (data : bytes) : option unit := Some tt.

Definition ex_downscale (img : unit) : unit := img.

(** A pipeline that answers every image with the verdict [v]. *)
Definition ex_pipeline (v : Verdict) (img : unit) (expected : option string)
    (existing_phashes : list string) : option Verdict := Some v.

Definition ex_new_image_key (jid : nat) (kind ext : string) : string :=
  "jobs/" +:+ pretty jid +:+ "/raw/0-" +:+ kind +:+ "." +:+ ext.

Definition ex_put_bytes (key : string) (data : bytes) : option string :=
  Some ("file:///tmp/_local_uploads/" +:+ key).

Definition ex_insert_ok (ps : list Photo) (p : Photo) : bool := true.

(** PASS, and no detected type. *)
Definition pass_no_type : Verdict :=
  mkVerdict None (Some "PASS") None (Some "abcd") None None None.

(** A resolved photo whose hash is the empty string. *)
Definition ex_photo_empty_hash : Photo :=
  mkPhoto 1 1 "LABELLING" "jobs/1/raw/0-s1_labelling.jpg" None (Some "") None
          ∅ ∅ (Some "PASS") [].

(** A resolved photo with a hash, recorded under the upper-case type. *)
Definition ex_photo_resolved : Photo :=
  mkPhoto 1 1 "LABELLING" "jobs/1/raw/0-s1_labelling.jpg" None (Some "abcd")
          None ∅ ∅ (Some "PASS") [].

(** The same job with its required type spelled in lower case. *)
Definition ex_job_lower : Job :=
  mkJob 1 "9999" "S1" [mkSector 1 ["labelling"] 0 PENDING] IN_PROGRESS
        None None None None.

(** A job whose first sector is exhausted and whose second is open. *)
Definition ex_job_exhausted : Job :=
  mkJob 1 "9999" "S1"
        [mkSector 1 ["LABELLING"] 1 DONE; mkSector 2 ["LABELLING"] 0 PENDING]
        IN_PROGRESS None None None None.

(** A job in flight that has no sector. *)
Definition ex_job_no_sectors : Job :=
  mkJob 2 "8888" "S2" [] IN_PROGRESS None None None None.

Definition ex_normalize_phone (s : string) : string := s.

Definition ex_fetch_media (url : string) : option bytes := Some [].

Definition ex_build_required_types (sid : Z) : list string :=
  ["LABELLING"; "AZIMUTH"].

Definition ex_utcnow : string := "2025-01-01T00:00:00".

(** A blob store that is down. *)
Definition ex_put_bytes_down (key : string) (data : bytes) : option string :=
  None.

(** A text message from the worker of the sector-less job. *)
Definition ex_text_event : Request :=
  FormBody (mkForm (Some "8888") None (Some 0) None None).

(** A photo sent by the worker of [ex_job]. *)
Definition ex_photo_event : Request :=
  FormBody (mkForm (Some "9999") None (Some 1)
              (Some "https://api.twilio.com/media/1") (Some "image/jpeg")).

Definition ex_task : Task := mkTask "9999" 1 1 "LABELLING" [].

(** Verdicts of the scenarios of the specification. *)
Definition pass_labelling : Verdict :=
  mkVerdict (Some "LABELLING") (Some "PASS") (Some []) (Some "abcd") None
            None None.

Definition fail_blurry : Verdict :=
  mkVerdict (Some "LABELLING") (Some "FAIL") (Some ["blurry"]) (Some "abcd")
            None None None.

Definition pass_azimuth : Verdict :=
  mkVerdict (Some "AZIMUTH") (Some "PASS") (Some []) (Some "abcd") None
            None None.

(** A job whose only sector requires one photo. *)
Definition ex_job_single : Job :=
  mkJob 1 "9999" "S1" [mkSector 1 ["LABELLING"] 0 PENDING] IN_PROGRESS
        None None None None.

(** PASS, with a note in the reason list. *)
Definition pass_with_note : Verdict :=
  mkVerdict (Some "LABELLING") (Some "PASS") (Some ["note"]) (Some "abcd")
            None None None.

(** PASS, with extracted fields: a MAC identifier and an azimuth of zero. *)
Definition pass_with_fields : Verdict :=
  mkVerdict (Some "LABELLING") (Some "PASS") (Some []) (Some "abcd") None
            (Some (<["macId" := VStr "AA:BB:CC"]>
                     (<["azimuthDeg" := VNum 0]> ∅)))
            None.

(** A finished job: its only sector is exhausted and DONE. *)
Definition ex_job_finished : Job :=
  mkJob 1 "9999" "S1" [mkSector 1 ["LABELLING"] 1 DONE] DONE
        None None None None.

(** * Properties *)

(** ** Strings and statuses *)

Lemma upper_status_done (st : Status) :
  upper (status_str st) = "DONE" ↔ st = DONE.
Proof. destruct st; split; intros H; try reflexivity; discriminate H. Qed.

Lemma active_iff (s : SectorProgress) :
  active s ↔ status s ≠ DONE ∧ currentIndex s < len s.
Proof. unfold active. rewrite upper_status_done. reflexivity. Qed.

(** ** The selector and the completion predicate *)

Lemma pick_active_Some (ss : list SectorProgress) (n : Z) :
  pick_active ss = Some n ↔
  ∃ l1 s l2, ss = (l1 ++ s :: l2)%list
             ∧ Forall (λ x, ¬ active x) l1 ∧ active s ∧ n = sector s.
Proof.
  induction ss as [|x ss IH]; simpl.
  - split; [discriminate|].
    intros (l1 & s & l2 & Heq & _). destruct l1; discriminate Heq.
  - case_decide as Hx.
    + split.
      * intros [= <-]. exists [], x, ss. repeat split; [constructor | apply Hx..].
      * intros (l1 & s & l2 & Heq & Hl1 & Hs & ->).
        destruct l1 as [|y l1]; simplify_eq/=; [done|].
        apply Forall_cons in Hl1 as [Hy _]. by destruct Hy.
    + rewrite IH. split.
      * intros (l1 & s & l2 & -> & Hl1 & Hs & ->).
        exists (x :: l1), s, l2. repeat split; [by constructor | apply Hs..].
      * intros (l1 & s & l2 & Heq & Hl1 & Hs & ->).
        destruct l1 as [|y l1]; simplify_eq/=; [by destruct Hx|].
        apply Forall_cons in Hl1 as [_ Hl1]. by exists l1, s, l2.
Qed.

Lemma pick_active_None (ss : list SectorProgress) :
  pick_active ss = None ↔ ∀ s, s ∈ ss → ¬ active s.
Proof.
  induction ss as [|x ss IH]; simpl.
  - split; [|done]. intros _ s Hs. by apply elem_of_nil in Hs.
  - case_decide as Hx.
    + split; [discriminate|]. intros H. destruct (H x); [left | exact Hx].
    + rewrite IH. split.
      * intros H s [->|Hs]%elem_of_cons; [exact Hx | by apply H].
      * intros H s Hs. apply H. by right.
Qed.

Lemma all_sectors_done_loop_true (ss : list SectorProgress) :
  all_sectors_done_loop ss = true ↔ ∀ s, s ∈ ss → ¬ active s.
Proof.
  induction ss as [|x ss IH]; simpl.
  - split; [|done]. intros _ s Hs. by apply elem_of_nil in Hs.
  - case_decide as Hx.
    + split; [discriminate|]. intros H. destruct (H x); [left | exact Hx].
    + rewrite IH. split.
      * intros H s [->|Hs]%elem_of_cons; [exact Hx | by apply H].
      * intros H s Hs. apply H. by right.
Qed.

Lemma not_active_iff (s : SectorProgress) :
  ¬ active s ↔ status s = DONE ∨ (currentIndex s >= len s)%Z.
Proof.
  rewrite active_iff. destruct (decide (status s = DONE)) as [Hd|Hd].
  - split; [by left|]. intros _ [Hn _]. by apply Hn.
  - split.
    + intros H. right. destruct (decide (currentIndex s < len s)); [|lia].
      destruct H. by split.
    + intros [?|?] [? ?]; [done|lia].
Qed.

Lemma all_sectors_done_true (ss : list SectorProgress) :
  all_sectors_done ss = true ↔ ss ≠ [] ∧ ∀ s, s ∈ ss → ¬ active s.
Proof.
  destruct ss as [|x ss].
  - simpl. split; [discriminate | by intros [? _]].
  - unfold all_sectors_done. rewrite all_sectors_done_loop_true.
    split; [by intros H | by intros [_ H]].
Qed.

(** C4. The Active-Sector Selector returns the sector number of the first
    sector, in stored order, whose status is not DONE and whose
    currentIndex is strictly below the length of its requiredTypes; it
    returns none exactly when no sector is such; and its result depends on
    the sector list alone. *)
Theorem pick_active_sector_first_open (job : Job) :
  (∀ n, _pick_active_sector job = Some n ↔
        ∃ l1 s l2,
          sectors job = (l1 ++ s :: l2)%list
          ∧ Forall (λ x, ¬ (status x ≠ DONE ∧ currentIndex x < len x)) l1
          ∧ (status s ≠ DONE ∧ currentIndex s < len s)
          ∧ n = sector s)
  ∧ (_pick_active_sector job = None ↔
       ∀ s, s ∈ sectors job → ¬ (status s ≠ DONE ∧ currentIndex s < len s))
  ∧ (∀ job', sectors job' = sectors job →
             _pick_active_sector job' = _pick_active_sector job).
Proof.
  unfold _pick_active_sector. split; [|split].
  - intros n. rewrite pick_active_Some.
    split; intros (l1 & s & l2 & Heq & Hl1 & Hs & ->); exists l1, s, l2;
      (split; [exact Heq|]); (split; [|split; [|reflexivity]]).
    + eapply Forall_impl; [exact Hl1|]. intros x Hx. by rewrite <- active_iff.
    + by apply active_iff.
    + eapply Forall_impl; [exact Hl1|]. intros x Hx. by rewrite active_iff.
    + by apply active_iff.
  - rewrite pick_active_None. split; intros H s Hs.
    + rewrite <- active_iff. by apply H.
    + rewrite active_iff. by apply H.
  - intros job' ->. reflexivity.
Qed.

(** C5. The all-sectors-done predicate holds exactly when the sector list
    is non-empty and every sector is DONE or has its currentIndex at or
    past the length of its requiredTypes; a non-empty list whose sectors
    all have currentIndex equal to that length satisfies it whatever the
    stored statuses, and the empty list does not. *)
Theorem all_sectors_done_iff (ss : list SectorProgress) :
  (all_sectors_done ss = true ↔
     ss ≠ [] ∧ ∀ s, s ∈ ss → status s = DONE ∨ (currentIndex s >= len s)%Z)
  ∧ (ss ≠ [] ∧ (∀ s, s ∈ ss → currentIndex s = len s) →
     all_sectors_done ss = true)
  ∧ all_sectors_done [] = false.
Proof.
  assert (Hiff : all_sectors_done ss = true ↔
     ss ≠ [] ∧ ∀ s, s ∈ ss → status s = DONE ∨ (currentIndex s >= len s)%Z).
  { rewrite all_sectors_done_true. split; intros [Hne H]; (split; [exact Hne|]);
      intros s Hs; apply not_active_iff; by apply H. }
  split; [exact Hiff|]. split; [|reflexivity].
  intros [Hne H]. apply Hiff. split; [exact Hne|].
  intros s Hs. right. rewrite (H s Hs). lia.
Qed.

(** ** Collections *)

Section CollectionFacts.
Context {A : Type} (P : A → Prop) `{!∀ x, Decision (P x)}.

Lemma find_one_Some (l : list A) (x : A) :
  find_one P l = Some x ↔ ∃ i, list_find P l = Some (i, x).
Proof.
  unfold find_one. destruct (list_find P l) as [[i y]|]; simpl.
  - split; [intros [= ->]; by exists i | intros (k & [= _ ->]); done].
  - split; [discriminate | intros (k & ?); discriminate].
Qed.

Lemma find_one_None (l : list A) :
  find_one P l = None ↔ ∀ x, x ∈ l → ¬ P x.
Proof.
  unfold find_one. rewrite fmap_None, list_find_None, Forall_forall.
  reflexivity.
Qed.

Lemma find_one_holds (l : list A) (x : A) :
  find_one P l = Some x → P x ∧ x ∈ l.
Proof.
  intros (i & (Hi & HP & _)%list_find_Some)%find_one_Some.
  split; [exact HP|]. by eapply list_elem_of_lookup_2.
Qed.

Lemma update_one_found (f : A → A) (l : list A) (i : nat) (x : A) :
  list_find P l = Some (i, x) → update_one P f l = alter f i l.
Proof. unfold update_one. by intros ->. Qed.

Lemma update_one_missing (f : A → A) (l : list A) :
  list_find P l = None → update_one P f l = l.
Proof. unfold update_one. by intros ->. Qed.

Lemma list_find_alter (f : A → A) (l : list A) (i : nat) (x : A) :
  list_find P l = Some (i, x) → P (f x) →
  list_find P (alter f i l) = Some (i, f x).
Proof.
  intros (Hi & HP & Hlt)%list_find_Some HPf. apply list_find_Some.
  split; [|split].
  - by rewrite list_lookup_alter_eq, Hi.
  - exact HPf.
  - intros j y Hj Hji. rewrite list_lookup_alter_ne in Hj by lia.
    by eapply Hlt.
Qed.

Lemma list_find_strengthen (Q : A → Prop) `{!∀ x, Decision (Q x)}
    (l : list A) (i : nat) (x : A) :
  list_find P l = Some (i, x) → Q x →
  list_find (λ y, P y ∧ Q y) l = Some (i, x).
Proof.
  intros (Hi & HP & Hlt)%list_find_Some HQ. apply list_find_Some.
  split; [exact Hi|]. split; [by split|].
  intros j y Hj Hji [HPy _]. by eapply Hlt.
Qed.

Lemma list_find_holds (l : list A) (i : nat) (x : A) :
  list_find P l = Some (i, x) → P x.
Proof. by intros (_ & HP & _)%list_find_Some. Qed.

Lemma find_one_list_find (l : list A) (i : nat) (x : A) :
  list_find P l = Some (i, x) → find_one P l = Some x.
Proof. unfold find_one. by intros ->. Qed.
End CollectionFacts.

(** ** One sector advance *)

Lemma sector_by_id_Some (ss : list SectorProgress) (sid : Z) (s : SectorProgress) :
  sector_by_id ss sid = Some s ↔
  ∃ i, list_find (λ x, sector x = sid) ss = Some (i, s).
Proof. apply find_one_Some. Qed.

Lemma expected_known_sector (j : Job) (sid : Z) (e : string) :
  _current_expected_type_for_sector j sid = Some e →
  ∃ s, sector_by_id (sectors j) sid = Some s
       ∧ 0 ≤ currentIndex s < len s
       ∧ requiredTypes s !! Z.to_nat (currentIndex s) = Some e.
Proof.
  unfold _current_expected_type_for_sector.
  destruct (sector_by_id (sectors j) sid) as [s|]; [|discriminate].
  case_decide as Hr; [|discriminate]. intros He. by exists s.
Qed.

Lemma advance_condition_expected (result : Verdict) (expected : option string) :
  advance_condition result expected → is_Some expected.
Proof. intros (_ & _ & <-). by eexists. Qed.

Lemma advance_sector_found (js : list Job) (jid : nat) (sid : Z)
    (k i : nat) (j : Job) (s : SectorProgress) :
  list_find (λ x, job_id x = jid) js = Some (k, j) →
  list_find (λ x, sector x = sid) (sectors j) = Some (i, s) →
  advance_sector js jid sid =
    (alter (update_positional sid advance_block) k js,
     Some (update_positional sid advance_block j)).
Proof.
  intros Hj Hs. unfold advance_sector.
  assert (HE : Exists (λ x, sector x = sid) (sectors j)).
  { apply Exists_exists. exists s. apply list_find_Some in Hs as (Hi & Hp & _).
    split; [by eapply list_elem_of_lookup_2 | exact Hp]. }
  pose proof (list_find_strengthen _ (λ x, Exists (λ y, sector y = sid) (sectors x))
                js k j Hj HE) as Hjs.
  fold (job_with_sector jid sid) in Hjs.
  rewrite (update_one_found _ _ _ _ _ Hjs).
  assert (Hid : job_id j = jid) by (by apply list_find_holds in Hj).
  pose proof (list_find_alter _ (update_positional sid inc_currentIndex)
                js k j Hj Hid) as Hj1.
  rewrite (find_one_list_find _ _ _ _ Hj1).
  assert (Hsid : sector s = sid) by (by apply list_find_holds in Hs).
  assert (Hs1 : list_find (λ x, sector x = sid)
                  (sectors (update_positional sid inc_currentIndex j))
                = Some (i, inc_currentIndex s)).
  { simpl. rewrite (update_one_found _ _ _ _ _ Hs).
    by apply list_find_alter. }
  unfold sector_by_id. rewrite (find_one_list_find _ _ _ _ Hs1).
  assert (Hblock : update_positional sid advance_block j =
            if decide (currentIndex (inc_currentIndex s) >= len (inc_currentIndex s))%Z
            then update_positional sid (set_sector_status DONE)
                   (update_positional sid inc_currentIndex j)
            else update_positional sid inc_currentIndex j).
  { unfold update_positional at 1 2 3 4. simpl.
    rewrite !(update_one_found _ _ _ _ _ Hs).
    case_decide as Hge.
    - unfold set_sectors; simpl. f_equal.
      rewrite (update_one_found _ _ _ _ _
                 (list_find_alter _ inc_currentIndex _ _ _ Hs Hsid)).
      rewrite list_alter_alter_eq. apply list_alter_ext; [|done].
      intros x Hx. apply list_find_Some in Hs as (Hi & _).
      simplify_eq. unfold advance_block. simpl. by rewrite decide_True.
    - unfold set_sectors; simpl. f_equal. apply list_alter_ext; [|done].
      intros x Hx. apply list_find_Some in Hs as (Hi & _). simplify_eq.
      unfold advance_block. by rewrite decide_False. }
  case_decide as Hge.
  - assert (HE1 : Exists (λ x, sector x = sid)
                    (sectors (update_positional sid inc_currentIndex j))).
    { apply Exists_exists. exists (inc_currentIndex s).
      apply list_find_Some in Hs1 as (Hi & Hp & _).
      split; [by eapply list_elem_of_lookup_2 | exact Hp]. }
    pose proof (list_find_strengthen _
                  (λ x, Exists (λ y, sector y = sid) (sectors x)) _ k _ Hj1 HE1)
      as Hjs1.
    fold (job_with_sector jid sid) in Hjs1.
    rewrite (update_one_found _ _ _ _ _ Hjs1).
    rewrite (find_one_list_find _ _ _ _
               (list_find_alter _ (update_positional sid (set_sector_status DONE))
                  _ k _ Hj1 Hid)).
    rewrite list_alter_alter_eq, Hblock. f_equal.
    apply list_alter_ext; [|done].
    intros x Hx.
    assert (x = j) as -> by (apply list_find_Some in Hj as (Hk & _); congruence).
    symmetry. exact Hblock.
  - rewrite Hblock. f_equal. apply list_alter_ext; [|done].
    intros x Hx.
    assert (x = j) as -> by (apply list_find_Some in Hj as (Hk & _); congruence).
    symmetry. exact Hblock.
Qed.

(** ** The shared steps act on the job's document in place *)

Lemma promote_job_id (result : Verdict) (j : Job) :
  job_id (promote_job result j) = job_id j.
Proof. unfold promote_job. by case_decide. Qed.

Lemma promote_job_sectors (result : Verdict) (j : Job) :
  sectors (promote_job result j) = sectors j.
Proof. unfold promote_job. by case_decide. Qed.

Lemma promote_job_status (result : Verdict) (j : Job) :
  job_status (promote_job result j) = job_status j.
Proof. unfold promote_job. by case_decide. Qed.

Lemma promote_fields_alter (result : Verdict) (js : list Job) (jid k : nat)
    (j : Job) :
  list_find (λ x, job_id x = jid) js = Some (k, j) →
  promote_fields result jid js = alter (promote_job result) k js.
Proof.
  intros Hj. unfold promote_fields.
  destruct (decide (rollup_updates (default ∅ (v_fields result)) = ∅)) as [Hu|Hu].
  - symmetry. apply list_alter_id. intros x. unfold promote_job.
    by rewrite decide_True.
  - rewrite (update_one_found _ _ _ _ _ Hj). apply list_alter_ext; [|done].
    intros x _. unfold promote_job. by rewrite decide_False.
Qed.

Lemma advance_job_id (result : Verdict) (sid : Z) (j : Job) :
  job_id (advance_job result sid j) = job_id j.
Proof. unfold advance_job. case_decide; simpl; apply promote_job_id. Qed.

Lemma advance_job_status (result : Verdict) (sid : Z) (j : Job) :
  job_status (advance_job result sid j) = job_status j.
Proof. unfold advance_job. case_decide; simpl; apply promote_job_status. Qed.

Lemma advance_job_sectors (result : Verdict) (sid : Z) (j : Job) :
  sectors (advance_job result sid j) =
  if decide (advance_condition result (_current_expected_type_for_sector j sid))
  then update_one (λ s, sector s = sid) advance_block (sectors j)
  else sectors j.
Proof.
  unfold advance_job. case_decide; simpl; by rewrite promote_job_sectors.
Qed.

Lemma job_after_id (result : Verdict) (sid : Z) (j : Job) :
  job_id (job_after result sid j) = job_id j.
Proof. unfold job_after. case_match; simpl; apply advance_job_id. Qed.

Lemma job_after_sectors (result : Verdict) (sid : Z) (j : Job) :
  sectors (job_after result sid j) = sectors (advance_job result sid j).
Proof. unfold job_after. by case_match. Qed.

Lemma job_after_status (result : Verdict) (sid : Z) (j : Job) :
  job_status (job_after result sid j) =
  if all_sectors_done (sectors (job_after result sid j)) then DONE
  else job_status j.
Proof.
  rewrite job_after_sectors. unfold job_after.
  case_match; simpl; [done | apply advance_job_status].
Qed.

Lemma advance_step (result : Verdict) (js : list Job) (jid : nat) (sid : Z)
    (k : nat) (j : Job) :
  list_find (λ x, job_id x = jid) js = Some (k, j) →
  ∃ job2,
    (if decide (advance_condition result (_current_expected_type_for_sector j sid))
     then advance_sector (promote_fields result jid js) jid sid
     else (promote_fields result jid js, Some j))
    = (alter (advance_job result sid) k js, Some job2)
    ∧ job_id job2 = jid
    ∧ sectors job2 = sectors (advance_job result sid j).
Proof.
  intros Hj. rewrite (promote_fields_alter _ _ _ _ _ Hj).
  assert (Hid : job_id j = jid) by (by apply list_find_holds in Hj).
  assert (Hx : ∀ x, js !! k = Some x → x = j).
  { intros x Hx. apply list_find_Some in Hj as (Hk & _). congruence. }
  destruct (decide (advance_condition result
                      (_current_expected_type_for_sector j sid))) as [Hadv|Hadv].
  - destruct (advance_condition_expected _ _ Hadv) as [e He].
    destruct (expected_known_sector _ _ _ He) as (s & Hs & _).
    apply sector_by_id_Some in Hs as [i Hs].
    assert (Hj1 : list_find (λ x, job_id x = jid) (alter (promote_job result) k js)
                  = Some (k, promote_job result j)).
    { apply list_find_alter; [exact Hj|]. by rewrite promote_job_id. }
    assert (Hs1 : list_find (λ x, sector x = sid) (sectors (promote_job result j))
                  = Some (i, s)) by (by rewrite promote_job_sectors).
    rewrite (advance_sector_found _ _ _ _ _ _ _ Hj1 Hs1).
    exists (update_positional sid advance_block (promote_job result j)).
    split; [|split].
    + f_equal. rewrite list_alter_alter_eq. apply list_alter_ext; [|done].
      intros x ->%Hx. unfold advance_job. by rewrite decide_True.
    + simpl. by rewrite promote_job_id.
    + unfold advance_job. by rewrite decide_True.
  - exists j. split; [|split].
    + f_equal. apply list_alter_ext; [|done].
      intros x ->%Hx. unfold advance_job. by rewrite decide_False.
    + exact Hid.
    + unfold advance_job. rewrite decide_False by exact Hadv.
      by rewrite promote_job_sectors.
Qed.

Lemma done_step (f : Job → Job) (js : list Job) (jid k : nat) (j : Job) :
  list_find (λ x, job_id x = jid) js = Some (k, j) →
  job_id (f j) = jid →
  update_one (λ x, job_id x = jid) (set_job_status DONE) (alter f k js)
  = alter (set_job_status DONE ∘ f) k js
  ∧ find_one (λ x, job_id x = jid)
      (update_one (λ x, job_id x = jid) (set_job_status DONE) (alter f k js))
    = Some (set_job_status DONE (f j)).
Proof.
  intros Hj Hid.
  pose proof (list_find_alter _ f js k j Hj Hid) as Hj1.
  rewrite (update_one_found _ _ _ _ _ Hj1). split.
  - apply list_alter_alter_eq.
  - apply (find_one_list_find _ _ k). by apply list_find_alter.
Qed.

Lemma job_after_alter (result : Verdict) (sid : Z) (js : list Job)
    (jid k : nat) (j : Job) :
  list_find (λ x, job_id x = jid) js = Some (k, j) →
  (if all_sectors_done (sectors (advance_job result sid j))
   then update_one (λ x, job_id x = jid) (set_job_status DONE)
          (alter (advance_job result sid) k js)
   else alter (advance_job result sid) k js)
  = alter (job_after result sid) k js.
Proof.
  intros Hj.
  assert (Hid : job_id (advance_job result sid j) = jid).
  { rewrite advance_job_id. by apply list_find_holds in Hj. }
  destruct (all_sectors_done (sectors (advance_job result sid j))) eqn:Hd.
  - rewrite (proj1 (done_step _ _ _ _ _ Hj Hid)).
    apply list_alter_ext; [|done]. intros x Hx.
    assert (x = j) as -> by (apply list_find_Some in Hj as (Hk & _); congruence).
    unfold job_after. by rewrite Hd.
  - apply list_alter_ext; [|done]. intros x Hx.
    assert (x = j) as -> by (apply list_find_Some in Hj as (Hk & _); congruence).
    unfold job_after. by rewrite Hd.
Qed.

Lemma find_one_after (f : Job → Job) (js : list Job) (jid k : nat) (j : Job) :
  list_find (λ x, job_id x = jid) js = Some (k, j) →
  job_id (f j) = jid →
  find_one (λ x, job_id x = jid) (alter f k js) = Some (f j).
Proof.
  intros Hj Hid. apply (find_one_list_find _ _ k). by apply list_find_alter.
Qed.

(** ** What a run does to the target sector *)

Lemma job_after_block (result : Verdict) (sid : Z) (j : Job)
    (sec : SectorProgress) :
  sector_by_id (sectors j) sid = Some sec →
  let expected := _current_expected_type_for_sector j sid in
  let sec' := if decide (advance_condition result expected)
              then advance_block sec else sec in
  ∃ i,
    sectors j !! i = Some sec
    ∧ sectors (job_after result sid j) = <[i := sec']> (sectors j)
    ∧ sector_by_id (sectors (job_after result sid j)) sid = Some sec'.
Proof.
  intros Hsec expected sec'.
  apply sector_by_id_Some in Hsec as [i Hs]. exists i.
  pose proof Hs as (Hi & Hsid & _)%list_find_Some.
  split; [exact Hi|].
  rewrite job_after_sectors, advance_job_sectors. fold expected.
  subst sec'. destruct (decide (advance_condition result expected)) as [Ha|Ha].
  - rewrite (update_one_found _ _ _ _ _ Hs). split.
    + rewrite list_insert_alter. apply list_alter_ext; [|done].
      intros x Hx. congruence.
    + apply (find_one_list_find _ _ i). apply list_find_alter; [exact Hs|].
      unfold advance_block. by case_decide.
  - split; [by rewrite list_insert_id|].
    by apply (find_one_list_find _ _ i).
Qed.

Lemma advance_block_outcome (result : Verdict) (j : Job) (sid : Z)
    (sec : SectorProgress) :
  sector_by_id (sectors j) sid = Some sec →
  let expected := _current_expected_type_for_sector j sid in
  advance_outcome result expected sec
    (if decide (advance_condition result expected)
     then advance_block sec else sec).
Proof.
  intros Hsec expected. unfold advance_outcome.
  destruct (decide (advance_condition result expected)) as [Ha|Ha].
  - destruct (advance_condition_expected _ _ Ha) as [e He].
    destruct (expected_known_sector _ _ _ He) as (s & Hs & Hr & _).
    assert (s = sec) as -> by congruence.
    assert (Hidx : currentIndex (advance_block sec) = currentIndex sec + 1).
    { unfold advance_block. by case_decide. }
    assert (Hlen : len (advance_block sec) = len sec).
    { unfold advance_block. by case_decide. }
    rewrite Hidx, Hlen.
    split; [split; [intros _; exact Ha | reflexivity]|].
    split; [intros Hn; by destruct Hn|].
    split; [lia|]. split; [lia|].
    unfold advance_block. by case_decide.
  - split; [split; [lia | intros Hn; by destruct Ha]|].
    split; [reflexivity|].
    split; [lia|]. split; [lia|]. by split.
Qed.

Lemma job_after_blocks (result : Verdict) (sid : Z) (j : Job) (i : nat)
    (s s' : SectorProgress) :
  sectors j !! i = Some s →
  sectors (job_after result sid j) !! i = Some s' →
  s' = s
  ∨ (advance_condition result (_current_expected_type_for_sector j sid)
     ∧ sector s = sid
     ∧ s' = advance_block s
     ∧ 0 ≤ currentIndex s < len s).
Proof.
  intros Hi Hi'. rewrite job_after_sectors, advance_job_sectors in Hi'.
  destruct (decide (advance_condition result
                      (_current_expected_type_for_sector j sid))) as [Ha|Ha].
  - destruct (advance_condition_expected _ _ Ha) as [e He].
    destruct (expected_known_sector _ _ _ He) as (sec & Hsec & Hr & _).
    apply sector_by_id_Some in Hsec as [i0 Hs].
    rewrite (update_one_found _ _ _ _ _ Hs) in Hi'.
    pose proof Hs as (Hi0 & Hsid & _)%list_find_Some.
    destruct (decide (i0 = i)) as [->|Hne].
    + rewrite list_lookup_alter_eq, Hi in Hi'. simplify_eq/=. by right.
    + rewrite list_lookup_alter_ne in Hi' by done. left. congruence.
  - left. congruence.
Qed.

Lemma job_after_length (result : Verdict) (sid : Z) (j : Job) :
  List.length (sectors (job_after result sid j)) = List.length (sectors j).
Proof.
  rewrite job_after_sectors, advance_job_sectors. case_decide; [|done].
  unfold update_one. case_match; [|done]. case_match. apply length_alter.
Qed.

Lemma advance_block_done (s : SectorProgress) :
  0 ≤ currentIndex s < len s →
  ((status s = DONE → currentIndex s = len s) →
   done_iff_exhausted (advance_block s))
  ∧ (status (advance_block s) = DONE → status s ≠ DONE →
     currentIndex (advance_block s) = currentIndex s + 1
     ∧ currentIndex (advance_block s) = len (advance_block s)).
Proof.
  intros Hr. unfold done_iff_exhausted, advance_block, len in *. simpl.
  case_decide as Hge; simpl.
  - split; [intros _; split; [intros _; lia | done]|]. intros _ _. lia.
  - split; [|done]. intros H1. split; [|lia].
    intros Hd. apply H1 in Hd. lia.
Qed.

(** ** The duplicate-detection reference set *)

Lemma elem_of_prev_phashes (ps : list Photo) (jid : nat) (sid : Z)
    (expected : option string) (h : string) :
  h ∈ prev_phashes ps jid sid expected ↔
  ∃ p, p ∈ ps
       ∧ jobId p = jid
       ∧ photo_sector p = sid
       ∧ photo_type p = upper (py_or_str expected "")
       ∧ (photo_status p = Some "PASS" ∨ photo_status p = Some "FAIL")
       ∧ phash p = Some h
       ∧ h ≠ "".
Proof.
  unfold prev_phashes. rewrite list_elem_of_omap. split.
  - intros (p & (HP & Hp)%list_elem_of_filter & Hh).
    exists p. destruct HP as (? & ? & ? & ?).
    unfold truthy in Hh. destruct (phash p) as [h'|]; [|discriminate].
    case_decide; [discriminate|]. simplify_eq. by repeat split.
  - intros (p & Hp & ? & ? & ? & ? & Hh & Hne).
    exists p. split; [apply list_elem_of_filter; by repeat split|].
    rewrite Hh. unfold truthy. by rewrite decide_False.
Qed.

(** ** A verdict without a detected type *)

Lemma result_type_default (result : Verdict) (expected : option string) :
  truthy (v_type result) = false →
  result_type_of result expected = upper (py_or_str expected "LABELLING").
Proof. intros Hty. unfold result_type_of, py_or. by rewrite Hty. Qed.

Lemma advance_condition_default (result : Verdict) (e : string) :
  truthy (v_type result) = false →
  upper (py_or_str (v_status result) "") = "PASS" →
  e ≠ "" → upper e = e →
  advance_condition result (Some e).
Proof.
  intros Hty Hst Hne Hup. unfold advance_condition.
  assert (Htr : truthy (Some e) = true).
  { unfold truthy. by rewrite decide_False. }
  split; [exact Hst|]. split; [exact Htr|].
  rewrite result_type_default by exact Hty.
  unfold py_or_str. rewrite Htr. simpl. by rewrite Hup.
Qed.

Lemma sector_index_after (result : Verdict) (js : list Job) (jid k : nat)
    (sid : Z) (j : Job) (ps ps' : list Photo) (idx : Z) :
  list_find (λ x, job_id x = jid) js = Some (k, j) →
  advance_condition result (_current_expected_type_for_sector j sid) →
  sector_index (mkDb js ps) jid sid = Some idx →
  sector_index (mkDb (alter (job_after result sid) k js) ps') jid sid
  = Some (idx + 1).
Proof.
  intros Hk Ha. unfold sector_index. simpl.
  rewrite (find_one_list_find _ _ _ _ Hk). simpl.
  assert (Hid : job_id (job_after result sid j) = jid).
  { rewrite job_after_id. by apply list_find_holds in Hk. }
  rewrite (find_one_after _ _ _ _ _ Hk Hid). simpl.
  destruct (sector_by_id (sectors j) sid) as [sec|] eqn:Hsec; [|discriminate].
  intros [= <-].
  destruct (job_after_block result sid j sec Hsec) as (i & _ & _ & ->).
  rewrite decide_True by exact Ha. simpl.
  unfold advance_block. by case_decide.
Qed.

(** ** The most recent document *)

Section LastMatch.
Context {A : Type} (P : A → Prop) `{!∀ x, Decision (P x)}.

Lemma find_last_index_None (l : list A) :
  (∀ y, y ∈ l → ¬ P y) → find_last_index P l = None.
Proof.
  induction l as [|a l IH]; intros Hall; simpl; [reflexivity|].
  rewrite IH by (intros y Hy; apply Hall; by right).
  rewrite decide_False; [reflexivity|]. apply Hall. by left.
Qed.

Lemma find_last_index_last (l : list A) (i : nat) (x : A) :
  l !! i = Some x → P x →
  (∀ j y, l !! j = Some y → (i < j)%nat → ¬ P y) →
  find_last_index P l = Some i.
Proof.
  revert i. induction l as [|a l IH]; intros i Hi HP Hafter; [done|].
  destruct i as [|i]; simpl in *.
  - simplify_eq. rewrite find_last_index_None.
    + by rewrite decide_True.
    + intros y [n Hn]%list_elem_of_lookup. apply (Hafter (S n) y Hn). lia.
  - rewrite (IH i Hi HP); [reflexivity|].
    intros n y Hn Hlt. apply (Hafter (S n) y Hn). lia.
Qed.
End LastMatch.

(** ** The routes *)

Section RouteFacts.
Context {Image : Type}.
Context (load_bgr : bytes → option Image)
        (_downscale_for_ocr : Image → Image)
        (run_pipeline : Image → option string → list string → option Verdict)
        (normalize_phone : string → string)
        (_fetch_media : string → option bytes)
        (new_image_key : nat → string → string → string)
        (put_bytes : string → bytes → option string)
        (photo_insert_ok : list Photo → Photo → bool)
        (build_required_types_for_sector : Z → list string)
        (utils_sector_by_id : list SectorProgress → Z → option SectorProgress)
        (utcnow : string).

Local Abbreviation background :=
  (_process_and_notify load_bgr _downscale_for_ocr run_pipeline).
Local Abbreviation upload :=
  (debug_upload load_bgr run_pipeline new_image_key put_bytes photo_insert_ok).
Local Abbreviation webhook :=
  (whatsapp_webhook normalize_phone _fetch_media new_image_key put_bytes
     photo_insert_ok).

Lemma background_effect (db : Db) (worker : string) (jid : nat) (sid : Z)
    (hint : option string) (data : bytes) (k : nat) (j : Job) (img : Image)
    (result : Verdict) :
  list_find (λ x, job_id x = jid) (jobs db) = Some (k, j) →
  load_bgr data = Some img →
  run_pipeline (_downscale_for_ocr img)
    (_current_expected_type_for_sector j sid)
    (prev_phashes (photos db) jid sid (_current_expected_type_for_sector j sid))
  = Some result →
  ∃ out,
    background db worker jid sid hint data =
    (mkDb (alter (job_after result sid) k (jobs db))
          (match find_last_index (λ p, jobId p = jid) (photos db) with
           | Some i =>
               alter (write_verdict result
                        (result_type_of result
                           (_current_expected_type_for_sector j sid)))
                     i (photos db)
           | None => photos db
           end),
     BgNotify out).
Proof using Type.
  intros Hj Hload Hrun.
  assert (Hid : job_id j = jid) by (by apply list_find_holds in Hj).
  subst jid. unfold _process_and_notify.
  rewrite (find_one_list_find _ _ _ _ Hj), Hload, Hrun.
  destruct (advance_step result (jobs db) (job_id j) sid k j Hj)
    as (job2 & -> & Hid2 & Hsec2).
  rewrite Hid2, Hsec2.
  pose proof (job_after_alter result sid _ _ _ _ Hj) as Hafter.
  destruct (all_sectors_done (sectors (advance_job result sid j))) eqn:Hd.
  - destruct (done_step (advance_job result sid) _ _ _ _ Hj
                (advance_job_id result sid j)) as [_ ->].
    rewrite Hafter. by eexists.
  - rewrite Hafter. by eexists.
Qed.
(** Document ids are unique keys: a document found by any filter is the
    one its id finds. *)
Lemma find_by_id_of_found (P : Job → Prop) `{!∀ x, Decision (P x)}
    (js : list Job) (j : Job) :
  NoDup (job_id <$> js) →
  find_one P js = Some j →
  ∃ k, list_find (λ x, job_id x = job_id j) js = Some (k, j).
Proof using Type.
  intros Hnd (k & (Hk & _ & _)%list_find_Some)%find_one_Some.
  exists k. apply list_find_Some. split; [exact Hk|]. split; [reflexivity|].
  intros i y Hi Hlt Heq.
  assert (i = k); [|lia].
  eapply NoDup_lookup; [exact Hnd|..].
  - rewrite list_lookup_fmap, Hi. reflexivity.
  - rewrite list_lookup_fmap, Hk. simpl. by rewrite Heq.
Qed.

Lemma fresh_job_id_new (js : list Job) (j : Job) :
  j ∈ js → job_id j ≠ fresh_job_id js.
Proof using Type.
  intros Hj. unfold fresh_job_id.
  assert (job_id j ≤ max_list (job_id <$> js))%nat; [|lia].
  apply max_list_elem_of_le. apply list_elem_of_fmap. by exists j.
Qed.

Lemma debug_ensure_job_found (js : list Job) (w site : string) (sid : Z) :
  NoDup (job_id <$> js) →
  ∃ js0 k j,
    debug_ensure_job js w site sid = (js0, Some j)
    ∧ list_find (λ x, job_id x = job_id j) js0 = Some (k, j)
    ∧ is_Some (sector_by_id (sectors j) sid).
Proof using Type.
  intros Hnd. unfold debug_ensure_job.
  destruct (find_one _ js) as [job|] eqn:Hfind.
  - destruct (find_by_id_of_found _ js job Hnd Hfind) as [k Hk].
    destruct (sector_by_id (sectors job) sid) as [s|] eqn:Hs.
    + exists js, k, job. rewrite Hs. by repeat split.
    + set (f := λ j : Job,
             set_sectors (sectors j ++ [debug_sector_block sid])%list j).
      rewrite (update_one_found _ _ _ _ _ Hk).
      assert (Hid : job_id (f job) = job_id job) by reflexivity.
      rewrite (find_one_after f js _ k job Hk Hid).
      exists (alter f k js), k, (f job). split; [reflexivity|].
      split; [by apply list_find_alter|].
      simpl. unfold sector_by_id, find_one.
      destruct (list_find (λ s, sector s = sid)
                  (sectors job ++ [debug_sector_block sid])%list) eqn:Hl;
        [by eexists|].
      apply list_find_None, Forall_app in Hl as [_ Hl].
      inversion Hl as [|? ? Hh _]. exfalso. apply Hh. reflexivity.
  - set (job := mkJob _ _ _ _ _ _ _ _ _).
    exists (js ++ [job])%list, (List.length js), job.
    split; [reflexivity|]. split.
    + apply list_find_Some. split; [|split; [reflexivity|]].
      * rewrite lookup_app_r by lia. by rewrite Nat.sub_diag.
      * intros i y Hi Hlt Heq.
        rewrite lookup_app_l in Hi by lia.
        apply list_elem_of_lookup_2 in Hi.
        by apply fresh_job_id_new in Hi.
    + simpl. unfold sector_by_id, find_one. simpl.
      rewrite decide_True by reflexivity. by eexists.
Qed.

Lemma upload_effect (db : Db) (w site : string) (sid : Z) (data : bytes)
    (js0 : list Job) (k : nat) (j : Job) (img : Image) (result : Verdict)
    (url : string) :
  let expected := _current_expected_type_for_sector j sid in
  let result_type := result_type_of result expected in
  let key := new_image_key (job_id j) (image_kind sid result_type) "jpg" in
  let photo :=
    mkPhoto (job_id j) sid result_type key (Some url)
      (v_phash result) (v_ocrText result)
      (default ∅ (v_fields result)) (default ∅ (v_checks result))
      (v_status result) (default [] (v_reason result)) in
  debug_ensure_job (jobs db) w site sid = (js0, Some j) →
  list_find (λ x, job_id x = job_id j) js0 = Some (k, j) →
  load_bgr data = Some img →
  run_pipeline img expected
    (prev_phashes (photos db) (job_id j) sid expected) = Some result →
  put_bytes key data = Some url →
  photo_insert_ok (photos db) photo = true →
  ∃ resp,
    upload db w site sid data =
    (mkDb (alter (job_after result sid) k js0) (photos db ++ [photo])%list, resp).
Proof using Type.
  intros expected result_type key photo Hens Hj Hload Hrun Hput Hins.
  unfold debug_upload. rewrite Hens, Hload.
  fold expected. rewrite Hrun. fold result_type. fold key. rewrite Hput.
  fold photo. unfold insert_photo. rewrite Hins.
  destruct (advance_step result js0 (job_id j) sid k j Hj)
    as (job2 & Heq & Hid2 & Hsec2).
  fold expected in Heq. rewrite Heq. rewrite Hid2, Hsec2.
  rewrite (job_after_alter result sid _ _ _ _ Hj). by eexists.
Qed.
(** C1 (amended).  A run increments the target sector's currentIndex, by
    exactly one, if and only if the verdict status upper-cased is PASS,
    the expected type is known (present and non-empty), and the effective
    detected type (the verdict's type, or the expected type when the
    verdict carries none, upper-cased) equals the expected type; otherwise
    the sector block is unchanged.  The index never decreases, and never
    passes the length of requiredTypes unless it already had.  No other
    block of the job changes.  Stated for the background processor and
    for the direct upload (there, once the photo has been saved). *)
Theorem advance_iff_effective_match :
  (∀ db worker jid sid hint data job sec img result,
     let expected := _current_expected_type_for_sector job sid in
     find_one (λ x, job_id x = jid) (jobs db) = Some job →
     sector_by_id (sectors job) sid = Some sec →
     load_bgr data = Some img →
     run_pipeline (_downscale_for_ocr img) expected
       (prev_phashes (photos db) jid sid expected) = Some result →
     ∃ job' sec' i,
       find_one (λ x, job_id x = jid)
         (jobs (background db worker jid sid hint data).1) = Some job'
       ∧ sector_by_id (sectors job') sid = Some sec'
       ∧ sectors job !! i = Some sec
       ∧ sectors job' = <[i := sec']> (sectors job)
       ∧ advance_outcome result expected sec sec')
  ∧ (∀ db w site sid data js0 job sec img result url,
       let expected := _current_expected_type_for_sector job sid in
       let result_type := result_type_of result expected in
       let key := new_image_key (job_id job) (image_kind sid result_type) "jpg" in
       NoDup (job_id <$> jobs db) →
       debug_ensure_job (jobs db) w site sid = (js0, Some job) →
       sector_by_id (sectors job) sid = Some sec →
       load_bgr data = Some img →
       run_pipeline img expected
         (prev_phashes (photos db) (job_id job) sid expected) = Some result →
       put_bytes key data = Some url →
       photo_insert_ok (photos db)
         (mkPhoto (job_id job) sid result_type key (Some url)
            (v_phash result) (v_ocrText result)
            (default ∅ (v_fields result)) (default ∅ (v_checks result))
            (v_status result) (default [] (v_reason result))) = true →
       ∃ job' sec' i,
         find_one (λ x, job_id x = job_id job)
           (jobs (upload db w site sid data).1) = Some job'
         ∧ sector_by_id (sectors job') sid = Some sec'
         ∧ sectors job !! i = Some sec
         ∧ sectors job' = <[i := sec']> (sectors job)
         ∧ advance_outcome result expected sec sec').
Proof using Type.
  split.
  - intros db worker jid sid hint data job sec img result expected
      Hjob Hsec Hload Hrun.
    apply find_one_Some in Hjob as [k Hk].
    destruct (background_effect db worker jid sid hint data k job img result
                Hk Hload Hrun) as [out ->].
    destruct (job_after_block result sid job sec Hsec) as (i & Hi & Hss & Hs').
    eexists _, _, i. simpl.
    split; [apply (find_one_after _ _ _ _ _ Hk); rewrite job_after_id;
            by apply list_find_holds in Hk|].
    split; [exact Hs'|]. split; [exact Hi|]. split; [exact Hss|].
    by apply advance_block_outcome.
  - intros db w site sid data js0 job sec img result url expected result_type
      key Hnd Hens Hsec Hload Hrun Hput Hins.
    destruct (debug_ensure_job_found (jobs db) w site sid Hnd)
      as (js0' & k & j' & Hens' & Hk & _).
    rewrite Hens in Hens'. simplify_eq.
    destruct (upload_effect db w site sid data _ k _ img result url
                Hens Hk Hload Hrun Hput Hins) as [resp ->].
    destruct (job_after_block result sid _ sec Hsec) as (i & Hi & Hss & Hs').
    eexists _, _, i. simpl.
    split; [apply (find_one_after _ _ _ _ _ Hk); by rewrite job_after_id|].
    split; [exact Hs'|]. split; [exact Hi|]. split; [exact Hss|].
    by apply advance_block_outcome.
Qed.
(** C3.  After a run, a sector block whose status was DONE exactly when
    its currentIndex equalled the length of its requiredTypes still is; a
    block the run changes is DONE exactly when its currentIndex equals
    that length (no block being DONE short of its end beforehand); and a
    block whose status turns DONE in the run is the target sector, was
    advanced by one in that run, and stands at the end of its
    requiredTypes: DONE is set by the recomputation after an advance and
    by nothing else.  Stated for the background processor and for the
    direct upload. *)
Theorem sector_done_iff_exhausted :
  (∀ db worker jid sid hint data job img result,
     let expected := _current_expected_type_for_sector job sid in
     find_one (λ x, job_id x = jid) (jobs db) = Some job →
     load_bgr data = Some img →
     run_pipeline (_downscale_for_ocr img) expected
       (prev_phashes (photos db) jid sid expected) = Some result →
     ∃ job',
       find_one (λ x, job_id x = jid)
         (jobs (background db worker jid sid hint data).1) = Some job'
       ∧ List.length (sectors job') = List.length (sectors job)
       ∧ ∀ i s s',
           sectors job !! i = Some s → sectors job' !! i = Some s' →
           (done_iff_exhausted s → done_iff_exhausted s')
           ∧ (s' ≠ s → (status s = DONE → currentIndex s = len s) →
              done_iff_exhausted s')
           ∧ (status s' = DONE → status s ≠ DONE →
              advance_condition result expected
              ∧ sector s = sid
              ∧ currentIndex s' = currentIndex s + 1
              ∧ currentIndex s' = len s'))
  ∧ (∀ db w site sid data js0 job img result url,
       let expected := _current_expected_type_for_sector job sid in
       let result_type := result_type_of result expected in
       let key := new_image_key (job_id job) (image_kind sid result_type) "jpg" in
       NoDup (job_id <$> jobs db) →
       debug_ensure_job (jobs db) w site sid = (js0, Some job) →
       load_bgr data = Some img →
       run_pipeline img expected
         (prev_phashes (photos db) (job_id job) sid expected) = Some result →
       put_bytes key data = Some url →
       photo_insert_ok (photos db)
         (mkPhoto (job_id job) sid result_type key (Some url)
            (v_phash result) (v_ocrText result)
            (default ∅ (v_fields result)) (default ∅ (v_checks result))
            (v_status result) (default [] (v_reason result))) = true →
       ∃ job',
         find_one (λ x, job_id x = job_id job)
           (jobs (upload db w site sid data).1) = Some job'
         ∧ List.length (sectors job') = List.length (sectors job)
         ∧ ∀ i s s',
             sectors job !! i = Some s → sectors job' !! i = Some s' →
             (done_iff_exhausted s → done_iff_exhausted s')
             ∧ (s' ≠ s → (status s = DONE → currentIndex s = len s) →
                done_iff_exhausted s')
             ∧ (status s' = DONE → status s ≠ DONE →
                advance_condition result expected
                ∧ sector s = sid
                ∧ currentIndex s' = currentIndex s + 1
                ∧ currentIndex s' = len s')).
Proof using Type.
  assert (Hblocks : ∀ result sid j i s s',
    sectors j !! i = Some s →
    sectors (job_after result sid j) !! i = Some s' →
    (done_iff_exhausted s → done_iff_exhausted s')
    ∧ (s' ≠ s → (status s = DONE → currentIndex s = len s) →
       done_iff_exhausted s')
    ∧ (status s' = DONE → status s ≠ DONE →
       advance_condition result (_current_expected_type_for_sector j sid)
       ∧ sector s = sid
       ∧ currentIndex s' = currentIndex s + 1
       ∧ currentIndex s' = len s')).
  { intros result sid j i s s' Hi Hi'.
    destruct (job_after_blocks result sid j i s s' Hi Hi')
      as [->|(Ha & Hsid & -> & Hr)]; [by split|].
    destruct (advance_block_done s Hr) as [H1 H2].
    split; [intros Hinv; apply H1; apply Hinv|].
    split; [intros _; exact H1|].
    intros Hd Hn. destruct (H2 Hd Hn) as [? ?]. done. }
  split.
  - intros db worker jid sid hint data job img result expected
      Hjob Hload Hrun.
    apply find_one_Some in Hjob as [k Hk].
    destruct (background_effect db worker jid sid hint data k job img result
                Hk Hload Hrun) as [out ->].
    exists (job_after result sid job). simpl.
    split; [apply (find_one_after _ _ _ _ _ Hk); rewrite job_after_id;
            by apply list_find_holds in Hk|].
    split; [apply job_after_length|]. apply Hblocks.
  - intros db w site sid data js0 job img result url expected result_type
      key Hnd Hens Hload Hrun Hput Hins.
    destruct (debug_ensure_job_found (jobs db) w site sid Hnd)
      as (js0' & k & j' & Hens' & Hk & _).
    rewrite Hens in Hens'. simplify_eq.
    destruct (upload_effect db w site sid data _ k _ img result url
                Hens Hk Hload Hrun Hput Hins) as [resp ->].
    exists (job_after result sid j'). simpl.
    split; [apply (find_one_after _ _ _ _ _ Hk); by rewrite job_after_id|].
    split; [apply job_after_length|]. apply Hblocks.
Qed.
(** C6 (amended).  The reference set handed to the pipeline contains
    exactly the non-null, non-empty hashes of the photos with status PASS
    or FAIL that belong to the same job and the same sector and whose
    recorded type is the expected type upper-cased (the empty string when
    the expected type is unknown); a hash that only photos of another
    sector or another recorded type carry is not in it; and both routes
    consult the pipeline at this set and nowhere else. *)
Theorem reference_set_scope :
  (∀ ps jid sid expected h,
     h ∈ prev_phashes ps jid sid expected ↔
     ∃ p, p ∈ ps
          ∧ jobId p = jid
          ∧ photo_sector p = sid
          ∧ photo_type p = upper (py_or_str expected "")
          ∧ (photo_status p = Some "PASS" ∨ photo_status p = Some "FAIL")
          ∧ phash p = Some h
          ∧ h ≠ "")
  ∧ (∀ ps jid sid expected h,
       (∀ p, p ∈ ps → phash p = Some h →
             photo_sector p ≠ sid
             ∨ photo_type p ≠ upper (py_or_str expected "")) →
       h ∉ prev_phashes ps jid sid expected)
  ∧ (∀ (rp rp' : Image → option string → list string → option Verdict)
       db worker jid sid hint data,
       (∀ job img,
          find_one (λ x, job_id x = jid) (jobs db) = Some job →
          load_bgr data = Some img →
          let expected := _current_expected_type_for_sector job sid in
          rp (_downscale_for_ocr img) expected
             (prev_phashes (photos db) jid sid expected)
          = rp' (_downscale_for_ocr img) expected
              (prev_phashes (photos db) jid sid expected)) →
       _process_and_notify load_bgr _downscale_for_ocr rp
         db worker jid sid hint data
       = _process_and_notify load_bgr _downscale_for_ocr rp'
           db worker jid sid hint data)
  ∧ (∀ (rp rp' : Image → option string → list string → option Verdict)
       db w site sid data,
       (∀ js0 job img,
          debug_ensure_job (jobs db) w site sid = (js0, Some job) →
          load_bgr data = Some img →
          let expected := _current_expected_type_for_sector job sid in
          rp img expected (prev_phashes (photos db) (job_id job) sid expected)
          = rp' img expected
              (prev_phashes (photos db) (job_id job) sid expected)) →
       debug_upload load_bgr rp new_image_key put_bytes photo_insert_ok
         db w site sid data
       = debug_upload load_bgr rp' new_image_key put_bytes photo_insert_ok
           db w site sid data).
Proof using Type.
  split; [apply elem_of_prev_phashes|]. split; [|split].
  - intros ps jid sid expected h Hall
      (p & Hp & _ & Hsec & Hty & _ & Hh & _)%elem_of_prev_phashes.
    destruct (Hall p Hp Hh) as [Hn|Hn]; by destruct Hn.
  - intros rp rp' db worker jid sid hint data Hsame.
    unfold _process_and_notify.
    destruct (find_one _ (jobs db)) as [job|] eqn:Hjob; [|reflexivity].
    destruct (load_bgr data) as [img|] eqn:Hload; [|reflexivity].
    pose proof (find_one_holds _ _ _ Hjob) as [Hid _]. simpl in Hid.
    rewrite Hid. by rewrite (Hsame job img eq_refl eq_refl).
  - intros rp rp' db w site sid data Hsame.
    unfold debug_upload.
    destruct (debug_ensure_job (jobs db) w site sid) as [js0 [job|]] eqn:Hens;
      [|reflexivity].
    destruct (load_bgr data) as [img|] eqn:Hload; [|reflexivity].
    by rewrite (Hsame js0 job img eq_refl eq_refl).
Qed.
(** C9 (amended).  A photo record resolved by a run carries the
    verdict's status and the verdict's reason list, the empty list when
    the verdict has none: the background processor overwrites the most
    recent photo of the job with them, the direct upload inserts a record
    with them once the blob store has taken the bytes.  So the reason
    list of a resolved record, PASS or not, is empty exactly when the
    verdict's reason list is missing or empty. *)
Theorem resolved_photo_carries_verdict :
  (∀ db worker jid sid hint data job img result i p,
     let expected := _current_expected_type_for_sector job sid in
     find_one (λ x, job_id x = jid) (jobs db) = Some job →
     load_bgr data = Some img →
     run_pipeline (_downscale_for_ocr img) expected
       (prev_phashes (photos db) jid sid expected) = Some result →
     photos db !! i = Some p →
     jobId p = jid →
     (∀ i2 p2, photos db !! i2 = Some p2 → (i < i2)%nat → jobId p2 ≠ jid) →
     ∃ p',
       photos (background db worker jid sid hint data).1
       = <[i := p']> (photos db)
       ∧ photo_status p' = v_status result
       ∧ reason p' = default [] (v_reason result)
       ∧ (reason p' = [] ↔
          v_reason result = None ∨ v_reason result = Some []))
  ∧ (∀ db w site sid data js0 job img result url,
       let expected := _current_expected_type_for_sector job sid in
       let result_type := result_type_of result expected in
       let key := new_image_key (job_id job) (image_kind sid result_type) "jpg" in
       NoDup (job_id <$> jobs db) →
       debug_ensure_job (jobs db) w site sid = (js0, Some job) →
       load_bgr data = Some img →
       run_pipeline img expected
         (prev_phashes (photos db) (job_id job) sid expected) = Some result →
       put_bytes key data = Some url →
       photo_insert_ok (photos db)
         (mkPhoto (job_id job) sid result_type key (Some url)
            (v_phash result) (v_ocrText result)
            (default ∅ (v_fields result)) (default ∅ (v_checks result))
            (v_status result) (default [] (v_reason result))) = true →
       ∃ p',
         photos (upload db w site sid data).1 = (photos db ++ [p'])%list
         ∧ photo_status p' = v_status result
         ∧ reason p' = default [] (v_reason result)
         ∧ (reason p' = [] ↔
            v_reason result = None ∨ v_reason result = Some [])).
Proof using Type.
  assert (Hempty : ∀ result : Verdict,
            default [] (v_reason result) = [] ↔
            v_reason result = None ∨ v_reason result = Some []).
  { intros result. destruct (v_reason result) as [r|]; simpl.
    - split; [intros ->; by right | by intros [?|[= ->]]].
    - split; [by left | done]. }
  split.
  - intros db worker jid sid hint data job img result i p expected
      Hjob Hload Hrun Hi Hp Hafter.
    apply find_one_Some in Hjob as [k Hk].
    destruct (background_effect db worker jid sid hint data k job img result
                Hk Hload Hrun) as [out ->]. simpl.
    rewrite (find_last_index_last (λ p0, jobId p0 = jid) (photos db) i p
               Hi Hp Hafter).
    exists (write_verdict result (result_type_of result expected) p).
    split; [|split; [reflexivity | split; [reflexivity | apply Hempty]]].
    rewrite list_insert_alter. apply list_alter_ext; [|done].
    intros x Hx. assert (x = p) as -> by congruence. reflexivity.
  - intros db w site sid data js0 job img result url expected result_type
      key Hnd Hens Hload Hrun Hput Hins.
    destruct (debug_ensure_job_found (jobs db) w site sid Hnd)
      as (js0' & k & j' & Hens' & Hk & _).
    rewrite Hens in Hens'. simplify_eq.
    destruct (upload_effect db w site sid data _ k _ img result url
                Hens Hk Hload Hrun Hput Hins) as [resp ->].
    eexists. split; [reflexivity|]. simpl.
    split; [reflexivity|]. split; [reflexivity | apply Hempty].
Qed.
(** C10 (amended).  When the verdict has no detected type (missing or
    empty), the effective type is the expected type, or the literal
    LABELLING when the expected type is unknown, upper-cased.  The
    background processor overwrites the most recent photo of the job with
    it, and the direct upload, once the blob store has taken the bytes,
    inserts the photo under it.  Consequently, when the expected type is
    known, non-empty and already upper-case, a verdict whose status
    upper-cased is PASS is recorded under the expected type and advances
    the sector's currentIndex by one (in the direct upload, once the
    photo has been saved). *)
Theorem missing_type_defaults_to_expected :
  (∀ result expected,
     truthy (v_type result) = false →
     result_type_of result expected = upper (py_or_str expected "LABELLING"))
  ∧ (∀ db worker jid sid hint data job img result,
       let expected := _current_expected_type_for_sector job sid in
       let db' := (background db worker jid sid hint data).1 in
       find_one (λ x, job_id x = jid) (jobs db) = Some job →
       load_bgr data = Some img →
       run_pipeline (_downscale_for_ocr img) expected
         (prev_phashes (photos db) jid sid expected) = Some result →
       truthy (v_type result) = false →
       (∀ i p,
          photos db !! i = Some p →
          jobId p = jid →
          (∀ i2 p2, photos db !! i2 = Some p2 → (i < i2)%nat →
                    jobId p2 ≠ jid) →
          ∃ p',
            photos db' = <[i := p']> (photos db)
            ∧ photo_type p' = upper (py_or_str expected "LABELLING")
            ∧ photo_status p' = v_status result)
       ∧ (∀ e idx,
            upper (py_or_str (v_status result) "") = "PASS" →
            expected = Some e → e ≠ "" → upper e = e →
            sector_index db jid sid = Some idx →
            upper (py_or_str expected "LABELLING") = e
            ∧ sector_index db' jid sid = Some (idx + 1)))
  ∧ (∀ db w site sid data js0 job img result url,
       let expected := _current_expected_type_for_sector job sid in
       let result_type := result_type_of result expected in
       let key := new_image_key (job_id job) (image_kind sid result_type) "jpg" in
       let db' := (upload db w site sid data).1 in
       NoDup (job_id <$> jobs db) →
       debug_ensure_job (jobs db) w site sid = (js0, Some job) →
       load_bgr data = Some img →
       run_pipeline img expected
         (prev_phashes (photos db) (job_id job) sid expected) = Some result →
       put_bytes key data = Some url →
       photo_insert_ok (photos db)
         (mkPhoto (job_id job) sid result_type key (Some url)
            (v_phash result) (v_ocrText result)
            (default ∅ (v_fields result)) (default ∅ (v_checks result))
            (v_status result) (default [] (v_reason result))) = true →
       truthy (v_type result) = false →
       ∃ p',
         photos db' = (photos db ++ [p'])%list
         ∧ photo_type p' = upper (py_or_str expected "LABELLING")
         ∧ photo_status p' = v_status result
         ∧ (∀ e idx,
              upper (py_or_str (v_status result) "") = "PASS" →
              expected = Some e → e ≠ "" → upper e = e →
              sector_index (mkDb js0 (photos db)) (job_id job) sid = Some idx →
              photo_type p' = e
              ∧ sector_index db' (job_id job) sid = Some (idx + 1))).
Proof using Type.
  split; [apply result_type_default|]. split.
  - intros db worker jid sid hint data job img result expected db'
      Hjob Hload Hrun Hty.
    apply find_one_Some in Hjob as [k Hk].
    destruct (background_effect db worker jid sid hint data k job img result
                Hk Hload Hrun) as [out Heq].
    subst db'. rewrite Heq. simpl. fold expected. split.
    + intros i p Hi Hp Hafter.
      rewrite (find_last_index_last (λ p0, jobId p0 = jid) (photos db) i p
                 Hi Hp Hafter).
      exists (write_verdict result (result_type_of result expected) p).
      split; [|split; [by apply result_type_default | reflexivity]].
      rewrite list_insert_alter. apply list_alter_ext; [|done].
      intros x Hx. assert (x = p) as -> by congruence. reflexivity.
    + intros e idx Hst He Hne Hup Hidx.
      assert (Ha : advance_condition result expected).
      { rewrite He. by apply advance_condition_default. }
      split.
      * rewrite He. unfold py_or_str, truthy. rewrite decide_False by done.
        simpl. exact Hup.
      * destruct db as [js ps]. simpl in *.
        by apply (sector_index_after result js jid k sid job ps).
  - intros db w site sid data js0 job img result url expected result_type
      key db' Hnd Hens Hload Hrun Hput Hins Hty.
    destruct (debug_ensure_job_found (jobs db) w site sid Hnd)
      as (js0' & k & j' & Hens' & Hk & _).
    rewrite Hens in Hens'. simplify_eq.
    destruct (upload_effect db w site sid data _ k _ img result url
                Hens Hk Hload Hrun Hput Hins) as [resp Heq].
    subst db'. rewrite Heq. simpl.
    eexists. split; [reflexivity|]. simpl.
    split; [by apply result_type_default|]. split; [reflexivity|].
    intros e idx Hst He Hne Hup Hidx.
    assert (Ha : advance_condition result expected).
    { rewrite He. by apply advance_condition_default. }
    split.
    + subst result_type. rewrite result_type_default by exact Hty.
      unfold expected in *. rewrite He. unfold py_or_str, truthy.
      rewrite decide_False by done. simpl. exact Hup.
    + by apply (sector_index_after result _ _ k sid j' (photos db)).
Qed.
(** C8.  The webhook schedules the background task only after the blob
    store has taken the bytes and the placeholder photo, with status
    PROCESSING, has been inserted; and an event that a working store would
    have accepted, but whose blob-store write or placeholder insert
    raises, is answered with the could-not-save retry prompt, schedules
    nothing and leaves the photo collection as it was. *)
Theorem save_failure_schedules_nothing :
  (∀ db request db' reply t,
     webhook db request = (db', reply, Some t) →
     let key := new_image_key (task_job t)
                  (image_kind (task_sector t) (task_hint t)) "jpg" in
     ∃ url,
       put_bytes key (task_data t) = Some url
       ∧ photo_insert_ok (photos db) (placeholder_of t key url) = true
       ∧ photos db' = (photos db ++ [placeholder_of t key url])%list
       ∧ photo_status (placeholder_of t key url) = Some "PROCESSING"
       ∧ reply = GotThePhoto)
  ∧ (∀ (put' : string → bytes → option string)
       (ok' : list Photo → Photo → bool) db request db2 reply2 t,
       whatsapp_webhook normalize_phone _fetch_media new_image_key put' ok'
         db request = (db2, reply2, Some t) →
       let key := new_image_key (task_job t)
                    (image_kind (task_sector t) (task_hint t)) "jpg" in
       (put_bytes key (task_data t) = None
        ∨ ∃ url, put_bytes key (task_data t) = Some url
                 ∧ photo_insert_ok (photos db) (placeholder_of t key url)
                   = false) →
       webhook db request = (mkDb (jobs db2) (photos db), CouldNotSave, None)).
Proof using Type.
  split.
  - intros db request db' reply t Hweb key. subst key.
    unfold whatsapp_webhook, insert_photo in Hweb.
    repeat (case_match; simplify_eq/=; try done).
    all: eexists; unfold placeholder_of; simpl; by repeat split.
  - intros put' ok' db request db2 reply2 t Hweb key Hfail. subst key.
    unfold whatsapp_webhook, insert_photo in *.
    repeat (case_match; simplify_eq/=; try done);
      destruct Hfail as [Hf|(url & Hf & Hins)]; unfold placeholder_of in *;
      simpl in *; simplify_eq; try done; congruence.
Qed.
(** C7.  A job-creation request for a (workerPhone, siteId) pair whose
    job already holds the requested sector number is rejected with an
    error (409 once the two names are non-empty) and leaves the store as
    it was; when the job does not hold the sector number, exactly one
    block, with currentIndex 0, is appended to its sector list and
    nothing else changes.  The lookup helper of [app.utils] is taken to
    behave as the helper of the same name in routes/whatsapp.py. *)
Theorem duplicate_sector_rejected (db : Db) (payload : CreateJob) (base : Job) :
  let worker := strip (cj_workerPhone payload) in
  let site := strip (cj_siteId payload) in
  let sid := cj_sector payload in
  let create :=
    create_or_extend_job normalize_phone build_required_types_for_sector
      utils_sector_by_id utcnow in
  (∀ l n, utils_sector_by_id l n = sector_by_id l n) →
  NoDup (job_id <$> jobs db) →
  find_one (λ j, workerPhone j = normalize_phone worker ∧ siteId j = site)
    (jobs db) = Some base →
  (is_Some (sector_by_id (sectors base) sid) →
   ∃ e, create db payload = (db, inl e)
        ∧ (worker ≠ "" → site ≠ "" → e = Http409))
  ∧ (sector_by_id (sectors base) sid = None → worker ≠ "" → site ≠ "" →
     ∃ k updated,
       jobs db !! k = Some base
       ∧ create db payload
         = (mkDb (<[k := updated]> (jobs db)) (photos db), inr updated)
       ∧ updated
         = set_sectors
             (sectors base
              ++ [mkSector sid (build_required_types_for_sector sid) 0 PENDING])%list
             base).
Proof using Type.
  intros worker site sid create Hutils Hnd Hbase. subst create.
  unfold create_or_extend_job. fold worker site sid. split.
  - intros [s Hs]. case_decide as Hempty.
    + exists Http400. split; [reflexivity|]. intros ? ?. by destruct Hempty.
    + rewrite Hbase, Hutils, Hs. exists Http409. by split.
  - intros Hs Hw Hsite. rewrite decide_False by (by intros [?|?]).
    rewrite Hbase, Hutils, Hs.
    destruct (find_by_id_of_found _ _ _ Hnd Hbase) as [k Hk].
    set (f := λ j : Job,
           set_sectors
             (sectors j
              ++ [mkSector sid (build_required_types_for_sector sid) 0 PENDING])%list
             j).
    rewrite (update_one_found _ _ _ _ _ Hk).
    assert (Hid : job_id (f base) = job_id base) by reflexivity.
    rewrite (find_one_after f _ _ k base Hk Hid).
    exists k, (f base).
    pose proof Hk as (Hlk & _)%list_find_Some.
    split; [exact Hlk|]. split; [|reflexivity].
    do 2 f_equal. rewrite list_insert_alter. apply list_alter_ext; [|done].
    intros x Hx. congruence.
Qed.
(** ** Job completion after an inbound event

    Outside the sector-less case the webhook and the background task keep
    the job status in step with the completion predicate. *)

Lemma background_cases (db : Db) (worker : string) (jid : nat) (sid : Z)
    (hint : option string) (data : bytes) (k : nat) (j : Job) :
  list_find (λ x, job_id x = jid) (jobs db) = Some (k, j) →
  (background db worker jid sid hint data).1 = db
  ∨ ∃ result,
      jobs (background db worker jid sid hint data).1
      = alter (job_after result sid) k (jobs db).
Proof using Type.
  intros Hk.
  destruct (load_bgr data) as [img|] eqn:Hload.
  - destruct (run_pipeline (_downscale_for_ocr img)
                (_current_expected_type_for_sector j sid)
                (prev_phashes (photos db) jid sid
                   (_current_expected_type_for_sector j sid)))
      as [result|] eqn:Hrun.
    + right. exists result.
      destruct (background_effect db worker jid sid hint data k j img result
                  Hk Hload Hrun) as [out ->]. reflexivity.
    + left. unfold _process_and_notify.
      rewrite (find_one_list_find _ _ _ _ Hk), Hload.
      rewrite (list_find_holds _ _ _ _ Hk). by rewrite Hrun.
  - left. unfold _process_and_notify.
    by rewrite (find_one_list_find _ _ _ _ Hk), Hload.
Qed.

Lemma webhook_cases (db : Db) (form : Form) (job : Job) :
  NoDup (job_id <$> jobs db) →
  find_one
    (λ j, workerPhone j
          = normalize_phone
              (py_or_str (py_or (form_From form) (form_WaId form)) "")
          ∧ in_flight j) (jobs db) = Some job →
  ∃ js1 k job1,
    list_find (λ x, job_id x = job_id job) js1 = Some (k, job1)
    ∧ job_status job1 = IN_PROGRESS
    ∧ ((_pick_active_sector job1 = None
        ∧ webhook db (FormBody form)
          = (mkDb (alter (set_job_status DONE) k js1) (photos db),
             AllSectorsComplete, None))
       ∨ ∃ z reply ps task,
           _pick_active_sector job1 = Some z
           ∧ webhook db (FormBody form) = (mkDb js1 ps, reply, task)
           ∧ ∀ t, task = Some t →
                  task_job t = job_id job ∧ task_sector t = z).
Proof using Type.
  intros Hnd Hfind.
  destruct (find_by_id_of_found _ _ _ Hnd Hfind) as [k Hk].
  pose proof (find_one_holds _ _ _ Hfind) as [[_ Hfl] _].
  assert (Hpre : ∃ js1 job1,
    (if decide (job_status job = PENDING)
     then (update_one (λ j, job_id j = job_id job)
             (set_job_status IN_PROGRESS) (jobs db),
           find_one (λ j, job_id j = job_id job)
             (update_one (λ j, job_id j = job_id job)
                (set_job_status IN_PROGRESS) (jobs db)))
     else (jobs db, Some job)) = (js1, Some job1)
    ∧ list_find (λ x, job_id x = job_id job) js1 = Some (k, job1)
    ∧ job_status job1 = IN_PROGRESS
    ∧ job_id job1 = job_id job).
  { case_decide as Hp.
    - rewrite (update_one_found _ _ _ _ _ Hk).
      rewrite (find_one_after (set_job_status IN_PROGRESS) _ _ k job Hk eq_refl).
      eexists _, _. split; [reflexivity|].
      split; [by apply list_find_alter|]. by split.
    - exists (jobs db), job. split; [reflexivity|]. split; [exact Hk|].
      split; [|reflexivity]. by destruct Hfl. }
  destruct Hpre as (js1 & job1 & Hpre & Hk1 & Hst & Hid).
  exists js1, k, job1. split; [exact Hk1|]. split; [exact Hst|].
  unfold whatsapp_webhook. rewrite Hfind, Hpre.
  destruct (_pick_active_sector job1) as [z|] eqn:Hpick.
  - right. exists z. unfold insert_photo.
    repeat case_match; eexists _, _, _; (split; [reflexivity|]);
      (split; [reflexivity|]); intros t Ht; by simplify_eq/=.
  - left. split; [reflexivity|].
    rewrite Hid. by rewrite (update_one_found _ _ _ _ _ Hk1).
Qed.

Lemma job_done_iff_after_event (db : Db) (form : Form) (job : Job) :
  NoDup (job_id <$> jobs db) →
  find_one
    (λ j, workerPhone j
          = normalize_phone
              (py_or_str (py_or (form_From form) (form_WaId form)) "")
          ∧ in_flight j) (jobs db) = Some job →
  ∃ job',
    find_one (λ j, job_id j = job_id job)
      (jobs (process_event load_bgr _downscale_for_ocr run_pipeline
               normalize_phone _fetch_media new_image_key put_bytes
               photo_insert_ok db (FormBody form))) = Some job'
    ∧ (job_status job' = DONE ↔
       sectors job' = [] ∨ all_sectors_done (sectors job') = true).
Proof using Type.
  intros Hnd Hfind.
  destruct (webhook_cases db form job Hnd Hfind)
    as (js1 & k & job1 & Hk1 & Hst & Hcases).
  assert (Hid : job_id job1 = job_id job) by (by apply list_find_holds in Hk1).
  assert (Hopen : ∀ z, _pick_active_sector job1 = Some z →
            sectors job1 ≠ [] ∧ all_sectors_done (sectors job1) ≠ true).
  { intros z (l1 & s & l2 & Heq & _ & Hs & _)%pick_active_Some.
    split; [rewrite Heq; by destruct l1|].
    intros [_ Hall]%all_sectors_done_true. apply (Hall s); [|exact Hs].
    rewrite Heq. apply elem_of_app. right. by left. }
  unfold process_event.
  destruct Hcases as [[Hpick ->]|(z & reply & ps & task & Hpick & -> & Htask)].
  - exists (set_job_status DONE job1). simpl.
    split; [by apply (find_one_after _ _ _ _ _ Hk1)|].
    split; [intros _|done].
    destruct (sectors job1) as [|s ss] eqn:Hss; [by left|]. right.
    apply all_sectors_done_true. split; [done|].
    rewrite <- Hss. by apply pick_active_None.
  - destruct (Hopen z Hpick) as [Hne Hnd1].
    assert (Hstay : ∃ job',
      find_one (λ j, job_id j = job_id job) js1 = Some job'
      ∧ (job_status job' = DONE ↔
         sectors job' = [] ∨ all_sectors_done (sectors job') = true)).
    { exists job1. split; [by apply (find_one_list_find _ _ k)|].
      rewrite Hst. split; [done|]. by intros [?|?]. }
    destruct task as [t|]; [|exact Hstay].
    destruct (Htask t eq_refl) as [-> ->].
    destruct (background_cases (mkDb js1 ps) (task_worker t) (job_id job) z
                (Some (task_hint t)) (task_data t) k job1 Hk1)
      as [->|[result ->]]; [exact Hstay|].
    exists (job_after result z job1).
    split; [apply (find_one_after _ _ _ _ _ Hk1); by rewrite job_after_id|].
    rewrite job_after_status.
    assert (Hne' : sectors (job_after result z job1) ≠ []).
    { intros Hnil. apply Hne. apply length_zero_iff_nil.
      rewrite <- (job_after_length result z job1), Hnil. reflexivity. }
    destruct (all_sectors_done (sectors (job_after result z job1))) eqn:Hd.
    + split; [by right | done].
    + rewrite Hst. split; [done|]. by intros [?|?].
Qed.
End RouteFacts.

(** * Instances and counterexamples *)

(** C1, as first stated, fails: on a PASS verdict that carries no
    detected type the cursor of the sector moves from 0 to 1, although
    the detected type is not the expected type. *)
Lemma advance_without_detected_type :
  sector_index ex_db 1 1 = Some 0
  ∧ sector_index
      (_process_and_notify ex_load ex_downscale (ex_pipeline pass_no_type)
         ex_db "9999" 1 1 (Some "LABELLING") []).1 1 1 = Some 1
  ∧ ¬ spec_advance_condition pass_no_type
        (_current_expected_type_for_sector ex_job 1).
Proof.
  split; [reflexivity|]. split; [vm_compute; reflexivity|].
  intros (_ & _ & Ht). discriminate Ht.
Qed.

(** C1 at the worked example: both routes, PASS verdict without a type. *)
Lemma advance_iff_effective_match_witness :
  (∃ job' sec' i,
     find_one (λ x, job_id x = 1%nat)
       (jobs (_process_and_notify ex_load ex_downscale
                (ex_pipeline pass_no_type) ex_db "9999" 1 1
                (Some "LABELLING") []).1) = Some job'
     ∧ sector_by_id (sectors job') 1 = Some sec'
     ∧ sectors ex_job !! i = Some ex_sector
     ∧ sectors job' = <[i := sec']> (sectors ex_job)
     ∧ advance_outcome pass_no_type
         (_current_expected_type_for_sector ex_job 1) ex_sector sec')
  ∧ (∃ job' sec' i,
       find_one (λ x, job_id x = 1%nat)
         (jobs (debug_upload ex_load (ex_pipeline pass_no_type)
                  ex_new_image_key ex_put_bytes ex_insert_ok
                  ex_db "9999" "S1" 1 []).1) = Some job'
       ∧ sector_by_id (sectors job') 1 = Some sec'
       ∧ sectors ex_job !! i = Some ex_sector
       ∧ sectors job' = <[i := sec']> (sectors ex_job)
       ∧ advance_outcome pass_no_type
           (_current_expected_type_for_sector ex_job 1) ex_sector sec').
Proof.
  split.
  - apply (proj1 (advance_iff_effective_match ex_load ex_downscale
                    (ex_pipeline pass_no_type) ex_new_image_key ex_put_bytes
                    ex_insert_ok)
             ex_db "9999" 1%nat 1 (Some "LABELLING") [] ex_job ex_sector tt
             pass_no_type); reflexivity.
  - apply (proj2 (advance_iff_effective_match ex_load ex_downscale
                    (ex_pipeline pass_no_type) ex_new_image_key ex_put_bytes
                    ex_insert_ok)
             ex_db "9999" "S1" 1 [] [ex_job] ex_job ex_sector tt pass_no_type
             ("file:///tmp/_local_uploads/"
              +:+ ex_new_image_key 1 (image_kind 1 "LABELLING") "jpg"));
      try reflexivity.
    apply NoDup_singleton.
Defined.

(** C6, as first stated, fails twice over: a resolved photo whose hash is
    the empty string is non-null yet left out of the reference set, and a
    photo recorded as LABELLING is included when the expected type is
    spelled in lower case. *)
Lemma reference_set_not_as_stated :
  (spec_reference_hash [ex_photo_empty_hash] 1 1 (Some "LABELLING") ""
   ∧ "" ∉ prev_phashes [ex_photo_empty_hash] 1 1 (Some "LABELLING"))
  ∧ ("abcd" ∈ prev_phashes [ex_photo_resolved] 1 1 (Some "labelling")
     ∧ ¬ spec_reference_hash [ex_photo_resolved] 1 1 (Some "labelling") "abcd").
Proof.
  split; split.
  - exists ex_photo_empty_hash. split; [by left|]. repeat split. by left.
  - assert (prev_phashes [ex_photo_empty_hash] 1 1 (Some "LABELLING") = [])
      as -> by reflexivity.
    apply not_elem_of_nil.
  - assert (prev_phashes [ex_photo_resolved] 1 1 (Some "labelling") = ["abcd"])
      as -> by reflexivity.
    by left.
  - intros (p & Hp & _ & _ & Hty & _).
    apply list_elem_of_singleton in Hp as ->. discriminate Hty.
Qed.

(** C2, at the failing input: a job in flight with an empty sector list
    is marked DONE by the first inbound event of its worker, although the
    all-sectors-done predicate is false for it. *)
Theorem sectorless_job_marked_done :
  let db' :=
    process_event ex_load ex_downscale (ex_pipeline pass_no_type)
      ex_normalize_phone ex_fetch_media ex_new_image_key ex_put_bytes
      ex_insert_ok (mkDb [ex_job_no_sectors] []) ex_text_event in
  job_status <$> find_one (λ j, job_id j = 2%nat) (jobs db') = Some DONE
  ∧ sectors <$> find_one (λ j, job_id j = 2%nat) (jobs db') = Some []
  ∧ all_sectors_done [] = false.
Proof. repeat split. Qed.

(** C10, as first stated, fails: a PASS verdict with no detected type
    does not advance a sector whose required type is spelled in lower
    case (it is recorded as LABELLING, not as the expected labelling), nor
    a sector whose expected type is unknown. *)
Lemma pass_without_type_not_advanced :
  (let db := mkDb [ex_job_lower] [ex_placeholder] in
   let db' := (_process_and_notify ex_load ex_downscale
                 (ex_pipeline pass_no_type) db "9999" 1 1
                 (Some "LABELLING") []).1 in
   _current_expected_type_for_sector ex_job_lower 1 = Some "labelling"
   ∧ sector_index db 1 1 = Some 0
   ∧ sector_index db' 1 1 = Some 0
   ∧ photo_type <$> last (photos db') = Some "LABELLING")
  ∧ (let db := mkDb [ex_job_exhausted] [] in
     let db' := (debug_upload ex_load (ex_pipeline pass_no_type)
                   ex_new_image_key ex_put_bytes ex_insert_ok
                   db "9999" "S1" 1 []).1 in
     _current_expected_type_for_sector ex_job_exhausted 1 = None
     ∧ sector_index db 1 1 = Some 1
     ∧ sector_index db' 1 1 = Some 1
     ∧ photo_type <$> last (photos db') = Some "LABELLING"
     ∧ photo_status <$> last (photos db') = Some (Some "PASS")).
Proof. split; repeat split. Qed.

(** C3 at the worked example. *)
Lemma sector_done_iff_exhausted_witness :
  (∃ job',
     find_one (λ x, job_id x = 1%nat)
       (jobs (_process_and_notify ex_load ex_downscale
                (ex_pipeline pass_no_type) ex_db "9999" 1 1
                (Some "LABELLING") []).1) = Some job'
     ∧ List.length (sectors job') = List.length (sectors ex_job)
     ∧ ∀ i s s',
         sectors ex_job !! i = Some s → sectors job' !! i = Some s' →
         (done_iff_exhausted s → done_iff_exhausted s')
         ∧ (s' ≠ s → (status s = DONE → currentIndex s = len s) →
            done_iff_exhausted s')
         ∧ (status s' = DONE → status s ≠ DONE →
            advance_condition pass_no_type
              (_current_expected_type_for_sector ex_job 1)
            ∧ sector s = 1
            ∧ currentIndex s' = currentIndex s + 1
            ∧ currentIndex s' = len s'))
  ∧ (∃ job',
       find_one (λ x, job_id x = 1%nat)
         (jobs (debug_upload ex_load (ex_pipeline pass_no_type)
                  ex_new_image_key ex_put_bytes ex_insert_ok
                  ex_db "9999" "S1" 1 []).1) = Some job'
       ∧ List.length (sectors job') = List.length (sectors ex_job)
       ∧ ∀ i s s',
           sectors ex_job !! i = Some s → sectors job' !! i = Some s' →
           (done_iff_exhausted s → done_iff_exhausted s')
           ∧ (s' ≠ s → (status s = DONE → currentIndex s = len s) →
              done_iff_exhausted s')
           ∧ (status s' = DONE → status s ≠ DONE →
              advance_condition pass_no_type
                (_current_expected_type_for_sector ex_job 1)
              ∧ sector s = 1
              ∧ currentIndex s' = currentIndex s + 1
              ∧ currentIndex s' = len s')).
Proof.
  split.
  - apply (proj1 (sector_done_iff_exhausted ex_load ex_downscale
                    (ex_pipeline pass_no_type) ex_new_image_key ex_put_bytes
                    ex_insert_ok)
             ex_db "9999" 1%nat 1 (Some "LABELLING") [] ex_job tt
             pass_no_type); reflexivity.
  - apply (proj2 (sector_done_iff_exhausted ex_load ex_downscale
                    (ex_pipeline pass_no_type) ex_new_image_key ex_put_bytes
                    ex_insert_ok)
             ex_db "9999" "S1" 1 [] [ex_job] ex_job tt pass_no_type
             ("file:///tmp/_local_uploads/"
              +:+ ex_new_image_key 1 (image_kind 1 "LABELLING") "jpg"));
      try reflexivity.
    apply NoDup_singleton.
Defined.

(** C7 at the worked example: sector 1 requested again for the job that
    holds it. *)
Lemma duplicate_sector_rejected_witness :
  ∃ e,
    create_or_extend_job ex_normalize_phone ex_build_required_types
      sector_by_id ex_utcnow ex_db (mkCreateJob " 9999" "S1 " 1)
    = (ex_db, inl e)
    ∧ (strip " 9999" ≠ "" → strip "S1 " ≠ "" → e = Http409).
Proof.
  apply (proj1 (duplicate_sector_rejected ex_normalize_phone
                  ex_build_required_types sector_by_id ex_utcnow
                  ex_db (mkCreateJob " 9999" "S1 " 1) ex_job
                  (λ _ _, eq_refl) (NoDup_singleton _) eq_refl)).
  by exists ex_sector.
Defined.

(** C8 at the worked example: the photo event with a working blob store,
    and with the blob store down. *)
Lemma save_failure_schedules_nothing_witness :
  (∃ url,
     ex_put_bytes
       (ex_new_image_key 1 (image_kind 1 "LABELLING") "jpg") [] = Some url
     ∧ ex_insert_ok (photos ex_db)
         (placeholder_of ex_task
            (ex_new_image_key 1 (image_kind 1 "LABELLING") "jpg") url) = true
     ∧ photos
         (whatsapp_webhook ex_normalize_phone ex_fetch_media ex_new_image_key
            ex_put_bytes ex_insert_ok ex_db ex_photo_event).1.1
       = (photos ex_db
          ++ [placeholder_of ex_task
                (ex_new_image_key 1 (image_kind 1 "LABELLING") "jpg") url])%list
     ∧ photo_status
         (placeholder_of ex_task
            (ex_new_image_key 1 (image_kind 1 "LABELLING") "jpg") url)
       = Some "PROCESSING"
     ∧ GotThePhoto = GotThePhoto)
  ∧ whatsapp_webhook ex_normalize_phone ex_fetch_media ex_new_image_key
      ex_put_bytes_down ex_insert_ok ex_db ex_photo_event
    = (ex_db, CouldNotSave, None).
Proof.
  split.
  - apply (proj1 (save_failure_schedules_nothing ex_normalize_phone
                    ex_fetch_media ex_new_image_key ex_put_bytes ex_insert_ok)
             ex_db ex_photo_event _ GotThePhoto ex_task).
    reflexivity.
  - apply (proj2 (save_failure_schedules_nothing ex_normalize_phone
                    ex_fetch_media ex_new_image_key ex_put_bytes_down
                    ex_insert_ok)
             ex_put_bytes ex_insert_ok ex_db ex_photo_event
             (mkDb [ex_job]
                (photos ex_db
                 ++ [placeholder_of ex_task
                       (ex_new_image_key 1 (image_kind 1 "LABELLING") "jpg")
                       ("file:///tmp/_local_uploads/"
                        +:+ ex_new_image_key 1 (image_kind 1 "LABELLING")
                              "jpg")])%list)
             GotThePhoto ex_task).
    + reflexivity.
    + by left.
Defined.

(** C9 at the worked example: the placeholder is overwritten, and the
    direct upload inserts the record. *)
Lemma resolved_photo_carries_verdict_witness :
  (∃ p',
     photos (_process_and_notify ex_load ex_downscale
               (ex_pipeline pass_with_note) ex_db "9999" 1 1
               (Some "LABELLING") []).1 = <[0%nat := p']> (photos ex_db)
     ∧ photo_status p' = v_status pass_with_note
     ∧ reason p' = default [] (v_reason pass_with_note)
     ∧ (reason p' = [] ↔
        v_reason pass_with_note = None ∨ v_reason pass_with_note = Some []))
  ∧ (∃ p',
       photos (debug_upload ex_load (ex_pipeline pass_with_note)
                 ex_new_image_key ex_put_bytes ex_insert_ok
                 ex_db "9999" "S1" 1 []).1 = (photos ex_db ++ [p'])%list
       ∧ photo_status p' = v_status pass_with_note
       ∧ reason p' = default [] (v_reason pass_with_note)
       ∧ (reason p' = [] ↔
          v_reason pass_with_note = None ∨ v_reason pass_with_note = Some [])).
Proof.
  split.
  - apply (proj1 (resolved_photo_carries_verdict ex_load ex_downscale
                    (ex_pipeline pass_with_note) ex_new_image_key ex_put_bytes
                    ex_insert_ok)
             ex_db "9999" 1%nat 1 (Some "LABELLING") [] ex_job tt
             pass_with_note 0%nat ex_placeholder); try reflexivity.
    intros [|i2] p2 Hp2 Hlt; [lia | discriminate Hp2].
  - apply (proj2 (resolved_photo_carries_verdict ex_load ex_downscale
                    (ex_pipeline pass_with_note) ex_new_image_key ex_put_bytes
                    ex_insert_ok)
             ex_db "9999" "S1" 1 [] [ex_job] ex_job tt pass_with_note
             ("file:///tmp/_local_uploads/"
              +:+ ex_new_image_key 1 (image_kind 1 "LABELLING") "jpg"));
      try reflexivity.
    apply NoDup_singleton.
Defined.

(** C9, as first stated, fails: the routes copy the verdict as it is, so
    a PASS verdict that carries a reason is recorded as a PASS photo with
    a non-empty reason list, by the background processor and by the
    direct upload alike (and it advances the sector like any PASS). *)
Lemma pass_with_reason_recorded :
  (let db' := (_process_and_notify ex_load ex_downscale
                 (ex_pipeline pass_with_note) ex_db "9999" 1 1
                 (Some "LABELLING") []).1 in
   photo_status <$> last (photos db') = Some (Some "PASS")
   ∧ reason <$> last (photos db') = Some ["note"]
   ∧ sector_index db' 1 1 = Some 1)
  ∧ (let db' := (debug_upload ex_load (ex_pipeline pass_with_note)
                   ex_new_image_key ex_put_bytes ex_insert_ok
                   ex_db "9999" "S1" 1 []).1 in
     photo_status <$> last (photos db') = Some (Some "PASS")
     ∧ reason <$> last (photos db') = Some ["note"]
     ∧ sector_index db' 1 1 = Some 1).
Proof. split; repeat split. Qed.

(** C10 at the worked example: the expected type LABELLING is upper-case,
    the placeholder is recorded under it and the verdict without a type
    advances the sector. *)
Lemma missing_type_defaults_to_expected_witness :
  ((∃ p',
      photos (_process_and_notify ex_load ex_downscale
                (ex_pipeline pass_no_type) ex_db "9999" 1 1
                (Some "LABELLING") []).1 = <[0%nat := p']> (photos ex_db)
      ∧ photo_type p' = "LABELLING"
      ∧ photo_status p' = Some "PASS")
   ∧ sector_index
       (_process_and_notify ex_load ex_downscale (ex_pipeline pass_no_type)
          ex_db "9999" 1 1 (Some "LABELLING") []).1 1 1 = Some (0 + 1))
  ∧ (∃ p',
       photos (debug_upload ex_load (ex_pipeline pass_no_type)
                 ex_new_image_key ex_put_bytes ex_insert_ok
                 ex_db "9999" "S1" 1 []).1 = (photos ex_db ++ [p'])%list
       ∧ photo_type p' = "LABELLING"
       ∧ sector_index
           (debug_upload ex_load (ex_pipeline pass_no_type)
              ex_new_image_key ex_put_bytes ex_insert_ok
              ex_db "9999" "S1" 1 []).1 1 1 = Some (0 + 1)).
Proof.
  split.
  - destruct (proj1 (proj2 (missing_type_defaults_to_expected ex_load
              ex_downscale (ex_pipeline pass_no_type) ex_new_image_key
              ex_put_bytes ex_insert_ok))
              ex_db "9999" 1%nat 1 (Some "LABELLING") [] ex_job tt pass_no_type
              eq_refl eq_refl eq_refl eq_refl) as [Hrec Hadv].
    split.
    + apply (Hrec 0%nat ex_placeholder); try reflexivity.
      intros [|i2] p2 Hp2 Hlt; [lia | discriminate Hp2].
    + apply (Hadv "LABELLING" 0); try reflexivity. discriminate.
  - destruct (proj2 (proj2 (missing_type_defaults_to_expected ex_load
              ex_downscale (ex_pipeline pass_no_type) ex_new_image_key
              ex_put_bytes ex_insert_ok))
              ex_db "9999" "S1" 1 [] [ex_job] ex_job tt pass_no_type
              ("file:///tmp/_local_uploads/"
               +:+ ex_new_image_key 1 (image_kind 1 "LABELLING") "jpg")
              (NoDup_singleton _) eq_refl eq_refl eq_refl eq_refl eq_refl
              eq_refl) as (p' & Hps & Hty & _ & Hadv).
    exists p'. split; [exact Hps|].
    destruct (Hadv "LABELLING" 0 eq_refl eq_refl) as [Ht Hi];
      [discriminate | reflexivity | reflexivity |].
    split; [exact Ht | exact Hi].
Defined.

(** ** The scenarios of the specification, run on the model *)

Example selector_skips_done :
  pick_active [mkSector 1 ["LABELLING"; "AZIMUTH"] 2 DONE;
               mkSector 2 ["LABELLING"; "AZIMUTH"; "SITE"] 0 PENDING]
  = Some 2.
Proof. reflexivity. Qed.

Example selector_none_when_exhausted :
  pick_active [mkSector 1 ["LABELLING"; "AZIMUTH"] 2 IN_PROGRESS] = None
  ∧ all_sectors_done [mkSector 1 ["LABELLING"; "AZIMUTH"] 2 IN_PROGRESS] = true.
Proof. split; reflexivity. Qed.

Example happy_path :
  _process_and_notify ex_load ex_downscale (ex_pipeline pass_labelling)
    ex_db "9999" 1 1 (Some "LABELLING") []
  = (mkDb [mkJob 1 "9999" "S1"
             [mkSector 1 ["LABELLING"; "AZIMUTH"] 1 PENDING] IN_PROGRESS
             None None None None]
          [mkPhoto 1 1 "LABELLING" "jobs/1/raw/0-s1_labelling.jpg" None
             (Some "abcd") None ∅ ∅ (Some "PASS") []],
     BgNotify (NextPrompt "LABELLING" "AZIMUTH")).
Proof. reflexivity. Qed.

Example fail_then_retry :
  _process_and_notify ex_load ex_downscale (ex_pipeline fail_blurry)
    ex_db "9999" 1 1 (Some "LABELLING") []
  = (mkDb [ex_job]
          [mkPhoto 1 1 "LABELLING" "jobs/1/raw/0-s1_labelling.jpg" None
             (Some "abcd") None ∅ ∅ (Some "FAIL") ["blurry"]],
     BgNotify (Retake "LABELLING" ["blurry"] "LABELLING")).
Proof. reflexivity. Qed.

Example sector_and_job_completion :
  _process_and_notify ex_load ex_downscale (ex_pipeline pass_labelling)
    (mkDb [ex_job_single] [ex_placeholder]) "9999" 1 1 (Some "LABELLING") []
  = (mkDb [mkJob 1 "9999" "S1" [mkSector 1 ["LABELLING"] 1 DONE] DONE
             None None None None]
          [mkPhoto 1 1 "LABELLING" "jobs/1/raw/0-s1_labelling.jpg" None
             (Some "abcd") None ∅ ∅ (Some "PASS") []],
     BgNotify (SectorComplete true)).
Proof. reflexivity. Qed.

Example type_mismatch_on_pass :
  sector_index
    (_process_and_notify ex_load ex_downscale (ex_pipeline pass_azimuth)
       ex_db "9999" 1 1 (Some "LABELLING") []).1 1 1
  = Some 0.
Proof. reflexivity. Qed.

Example webhook_schedules_after_placeholder :
  whatsapp_webhook ex_normalize_phone ex_fetch_media ex_new_image_key
    ex_put_bytes ex_insert_ok (mkDb [ex_job] []) ex_photo_event
  = (mkDb [ex_job]
          [mkPhoto 1 1 "LABELLING" "jobs/1/raw/0-s1_labelling.jpg"
             (Some "file:///tmp/_local_uploads/jobs/1/raw/0-s1_labelling.jpg")
             None None ∅ ∅ (Some "PROCESSING") []],
     GotThePhoto, Some ex_task).
Proof. reflexivity. Qed.

(** * Further properties of the routes *)

(** ** Collections, continued *)

Section CollectionMore.
Context {A : Type} (P : A → Prop) `{!∀ x, Decision (P x)}.

Lemma update_one_cases (f : A → A) (l : list A) :
  (list_find P l = None ∧ update_one P f l = l)
  ∨ ∃ i x, list_find P l = Some (i, x) ∧ update_one P f l = alter f i l.
Proof.
  unfold update_one. destruct (list_find P l) as [[i x]|]; [right|left]; eauto.
Qed.

Lemma update_one_fmap {B : Type} (g : A → B) (f : A → A) (l : list A) :
  (∀ x, g (f x) = g x) → g <$> update_one P f l = g <$> l.
Proof.
  intros Hg. destruct (update_one_cases f l) as [[_ ->]|(i & x & _ & ->)];
    [done|].
  apply list_eq. intros n. rewrite !list_lookup_fmap.
  destruct (decide (i = n)) as [->|Hne].
  - rewrite list_lookup_alter_eq. destruct (l !! n); simpl; [|done].
    by rewrite Hg.
  - by rewrite list_lookup_alter_ne.
Qed.

Lemma update_one_length (f : A → A) (l : list A) :
  List.length (update_one P f l) = List.length l.
Proof.
  destruct (update_one_cases f l) as [[_ ->]|(i & x & _ & ->)]; [done|].
  apply length_alter.
Qed.

Lemma find_last_index_Some (l : list A) (i : nat) :
  find_last_index P l = Some i →
  ∃ x, l !! i = Some x ∧ P x ∧ ∀ j y, l !! j = Some y → (i < j)%nat → ¬ P y.
Proof.
  revert i. induction l as [|a l IH]; intros i; simpl; [discriminate|].
  destruct (find_last_index P l) as [i'|] eqn:Hl.
  - intros [= <-]. destruct (IH i' eq_refl) as (x & Hx & HP & Hlast).
    exists x. split; [exact Hx|]. split; [exact HP|].
    intros [|j] y Hj Hlt; [lia|]. apply (Hlast j y Hj). lia.
  - case_decide as Ha; [|discriminate]. intros [= <-].
    exists a. split; [reflexivity|]. split; [exact Ha|].
    intros [|j] y Hj Hlt; [lia|]. simpl in Hj.
    clear IH. revert j y Hj Hlt Hl. induction l as [|b l IHl];
      intros j y Hj _ Hl; [by destruct j|].
    simpl in Hl. destruct (find_last_index P l) eqn:Hl'; [discriminate|].
    case_decide as Hb; [discriminate|].
    destruct j as [|j]; simpl in Hj; [by simplify_eq|].
    eapply IHl; [exact Hj | lia | reflexivity].
Qed.

Lemma find_last_index_snoc (l : list A) (x : A) :
  P x → find_last_index P (l ++ [x]) = Some (List.length l).
Proof.
  intros HP. induction l as [|a l IH]; simpl.
  - by rewrite decide_True.
  - by rewrite IH.
Qed.
End CollectionMore.

(** ** The selector, the expected type and the completion predicate *)

(** X1.  The selector returns none exactly when the sector list is empty
    or the all-sectors-done predicate holds: on a job with sectors the
    two helpers agree, on a sector-less job they part. *)
Theorem selector_none_iff_done (job : Job) :
  _pick_active_sector job = None ↔
  sectors job = [] ∨ all_sectors_done (sectors job) = true.
Proof.
  unfold _pick_active_sector. rewrite pick_active_None, all_sectors_done_true.
  split.
  - intros H. destruct (sectors job) as [|s ss] eqn:Hss; [by left|].
    right. by split.
  - intros [->|[_ H]]; [|exact H]. intros s Hs. by apply elem_of_nil in Hs.
Qed.



(** ** What the job-level steps keep *)

Lemma advance_block_fields (s : SectorProgress) :
  sector (advance_block s) = sector s
  ∧ requiredTypes (advance_block s) = requiredTypes s.
Proof. unfold advance_block. by case_decide. Qed.

Lemma job_after_keeps (result : Verdict) (sid : Z) (j : Job) :
  job_id (job_after result sid j) = job_id j
  ∧ workerPhone (job_after result sid j) = workerPhone j
  ∧ siteId (job_after result sid j) = siteId j
  ∧ createdAt (job_after result sid j) = createdAt j
  ∧ sector <$> sectors (job_after result sid j) = sector <$> sectors j
  ∧ requiredTypes <$> sectors (job_after result sid j)
    = requiredTypes <$> sectors j.
Proof.
  assert (Hp : ∀ j0, workerPhone (promote_job result j0) = workerPhone j0
                     ∧ siteId (promote_job result j0) = siteId j0
                     ∧ createdAt (promote_job result j0) = createdAt j0).
  { intros j0. unfold promote_job. by case_decide. }
  destruct (Hp j) as (Hw & Hs & Hc).
  rewrite job_after_id, job_after_sectors, advance_job_sectors.
  split; [reflexivity|].
  assert (Hrest : workerPhone (job_after result sid j) = workerPhone j
                  ∧ siteId (job_after result sid j) = siteId j
                  ∧ createdAt (job_after result sid j) = createdAt j).
  { unfold job_after, advance_job.
    repeat case_match; simpl; by rewrite ?Hw, ?Hs, ?Hc. }
  destruct Hrest as (? & ? & ?). do 3 (split; [done|]).
  case_decide; [|done].
  split; apply update_one_fmap; intros x; apply advance_block_fields.
Qed.

Lemma promote_job_keeps_sectors (result : Verdict) (j : Job) :
  sectors (promote_job result j) = sectors j
  ∧ job_id (promote_job result j) = job_id j
  ∧ job_status (promote_job result j) = job_status j.
Proof. unfold promote_job. by case_decide. Qed.

Lemma set_rollups_empty (j : Job) : set_rollups ∅ j = j.
Proof. by destruct j. Qed.

Lemma promote_job_rollups (result : Verdict) (j : Job) :
  promote_job result j
  = set_rollups (rollup_updates (default ∅ (v_fields result))) j.
Proof.
  unfold promote_job. case_decide as Hu; [|reflexivity].
  by rewrite Hu, set_rollups_empty.
Qed.

Lemma rollup_updates_lookup (fs : gmap string Value) :
  rollup_updates fs !! "macId"
  = (v ← fs !! "macId"; if value_truthy v then Some v else None)
  ∧ rollup_updates fs !! "rsnId"
    = (v ← fs !! "rsn"; if value_truthy v then Some v else None)
  ∧ rollup_updates fs !! "azimuthDeg" = fs !! "azimuthDeg".
Proof.
  unfold rollup_updates.
  destruct (fs !! "macId") as [m|]; destruct (fs !! "rsn") as [r|];
    destruct (fs !! "azimuthDeg") as [a|]; simpl;
    try destruct (value_truthy m); try destruct (value_truthy r);
    by simplify_map_eq.
Qed.

Lemma job_after_rollups (result : Verdict) (sid : Z) (j : Job) :
  macId (job_after result sid j) = macId (promote_job result j)
  ∧ rsnId (job_after result sid j) = rsnId (promote_job result j)
  ∧ azimuthDeg (job_after result sid j) = azimuthDeg (promote_job result j).
Proof. unfold job_after, advance_job. by repeat case_match. Qed.

Lemma same_index_of_id (js : list Job) (i k : nat) (j : Job) :
  NoDup (job_id <$> js) → js !! i = Some j → js !! k = Some j → i = k.
Proof.
  intros Hnd Hi Hk. eapply NoDup_lookup; [exact Hnd|..];
    rewrite list_lookup_fmap; [by rewrite Hi | by rewrite Hk].
Qed.

Lemma elem_of_alter_job (f : Job → Job) (js : list Job) (k : nat) (x : Job) :
  x ∈ alter f k js → x ∈ js ∨ ∃ j, js !! k = Some j ∧ x = f j.
Proof.
  intros [i Hi]%list_elem_of_lookup.
  destruct (decide (k = i)) as [->|Hne].
  - rewrite list_lookup_alter_eq in Hi.
    destruct (js !! i) as [j|] eqn:Hj; [|discriminate].
    right. exists j. split; [reflexivity|]. simpl in Hi. congruence.
  - rewrite list_lookup_alter_ne in Hi by done. left.
    by eapply list_elem_of_lookup_2.
Qed.

(** X9.  Finding or creating the upload job is idempotent: run again on
    the collection it produced, it returns the same collection and the
    same job, and creates nothing.  It adds at most one document. *)
Theorem debug_ensure_job_idempotent (js js0 : list Job) (w site : string)
    (sid : Z) (job : Job) :
  NoDup (job_id <$> js) →
  debug_ensure_job js w site sid = (js0, Some job) →
  debug_ensure_job js0 w site sid = (js0, Some job)
  ∧ (List.length js ≤ List.length js0 ≤ List.length js + 1)%nat
  ∧ is_Some (sector_by_id (sectors job) sid).
Proof.
  intros Hnd. unfold debug_ensure_job at 1.
  set (P := λ j : Job, workerPhone j = w ∧ siteId j = site ∧ in_flight j).
  destruct (find_one P js) as [j|] eqn:Hfind.
  - destruct (sector_by_id (sectors j) sid) as [s|] eqn:Hs.
    + intros [= <- <-]. split; [|split; [lia | by rewrite Hs]].
      unfold debug_ensure_job. fold P. by rewrite Hfind, Hs.
    + set (f := λ x : Job,
             set_sectors (sectors x ++ [debug_sector_block sid])%list x).
      destruct (find_by_id_of_found _ js j Hnd Hfind) as [k Hk].
      rewrite (update_one_found _ _ _ _ _ Hk).
      rewrite (find_one_after f js _ k j Hk eq_refl).
      intros [= <- <-].
      apply find_one_Some in Hfind as [k' Hk'].
      assert (k' = k) as ->.
      { apply (same_index_of_id js k' k j Hnd).
        - by apply list_find_Some in Hk' as (? & _).
        - by apply list_find_Some in Hk as (? & _). }
      assert (HPf : P (f j)) by (by apply list_find_holds in Hk').
      pose proof (list_find_alter P f js k j Hk' HPf) as Hfind'.
      assert (Hsec : is_Some (sector_by_id (sectors (f j)) sid)).
      { simpl. unfold sector_by_id, find_one.
        destruct (list_find (λ s, sector s = sid)
                    (sectors j ++ [debug_sector_block sid])%list) eqn:Hl;
          [by eexists|].
        apply list_find_None, Forall_app in Hl as [_ Hl].
        inversion Hl as [|? ? Hh _]. exfalso. apply Hh. reflexivity. }
      split; [|split; [rewrite length_alter; lia | exact Hsec]].
      unfold debug_ensure_job. fold P.
      rewrite (find_one_list_find _ _ _ _ Hfind').
      destruct Hsec as [s' Hs']. by rewrite Hs'.
    - intros [= <- <-].
      set (new := mkJob _ _ _ _ _ _ _ _ _).
      assert (Hnew : P new) by (repeat split; by right).
      assert (Hsec : sector_by_id (sectors new) sid
                     = Some (debug_sector_block sid)).
      { unfold sector_by_id, find_one. simpl.
        by rewrite decide_True by reflexivity. }
      split; [|split; [rewrite length_app; simpl; lia | by rewrite Hsec]].
      unfold debug_ensure_job. fold P.
      assert (Hf : find_one P (js ++ [new])%list = Some new).
      { unfold find_one in *. apply fmap_None in Hfind.
        rewrite (list_find_app_r _ _ _ Hfind). simpl.
        by rewrite decide_True by exact Hnew. }
      by rewrite Hf, Hsec.
Qed.

Section RouteMore.
Context {Image : Type}.
Context (load_bgr : bytes → option Image)
        (_downscale_for_ocr : Image → Image)
        (run_pipeline : Image → option string → list string → option Verdict)
        (normalize_phone : string → string)
        (_fetch_media : string → option bytes)
        (new_image_key : nat → string → string → string)
        (put_bytes : string → bytes → option string)
        (photo_insert_ok : list Photo → Photo → bool)
        (build_required_types_for_sector : Z → list string)
        (utils_sector_by_id : list SectorProgress → Z → option SectorProgress)
        (utcnow : string).

Local Abbreviation background :=
  (_process_and_notify load_bgr _downscale_for_ocr run_pipeline).
Local Abbreviation upload :=
  (debug_upload load_bgr run_pipeline new_image_key put_bytes photo_insert_ok).
Local Abbreviation webhook :=
  (whatsapp_webhook normalize_phone _fetch_media new_image_key put_bytes
     photo_insert_ok).
Local Abbreviation create :=
  (create_or_extend_job normalize_phone build_required_types_for_sector
     utils_sector_by_id utcnow).
Local Abbreviation event :=
  (process_event load_bgr _downscale_for_ocr run_pipeline normalize_phone
     _fetch_media new_image_key put_bytes photo_insert_ok).

Lemma background_outcomes (db : Db) (worker : string)
    (jid : nat) (sid : Z) (hint : option string) (data : bytes) :
  (find_one (λ x, job_id x = jid) (jobs db) = None
   ∧ background db worker jid sid hint data = (db, BgJobMissing))
  ∨ (∃ job,
       find_one (λ x, job_id x = jid) (jobs db) = Some job
       ∧ (load_bgr data = None
          ∨ ∃ img,
              load_bgr data = Some img
              ∧ let expected := _current_expected_type_for_sector job sid in
                run_pipeline (_downscale_for_ocr img) expected
                  (prev_phashes (photos db) jid sid expected) = None)
       ∧ background db worker jid sid hint data = (db, BgRaised))
  ∨ (∃ job img result out,
       find_one (λ x, job_id x = jid) (jobs db) = Some job
       ∧ load_bgr data = Some img
       ∧ (let expected := _current_expected_type_for_sector job sid in
          run_pipeline (_downscale_for_ocr img) expected
            (prev_phashes (photos db) jid sid expected) = Some result)
       ∧ (background db worker jid sid hint data).2 = BgNotify out).
Proof using Type.
  destruct (find_one (λ x, job_id x = jid) (jobs db)) as [job|] eqn:Hjob.
  - right. pose proof Hjob as [k Hk]%find_one_Some.
    pose proof (list_find_holds _ _ _ _ Hk) as Hid. simpl in Hid.
    destruct (load_bgr data) as [img|] eqn:Hload.
    + destruct (run_pipeline (_downscale_for_ocr img)
                  (_current_expected_type_for_sector job sid)
                  (prev_phashes (photos db) jid sid
                     (_current_expected_type_for_sector job sid)))
        as [result|] eqn:Hrun.
      * right.
        destruct (background_effect load_bgr _downscale_for_ocr run_pipeline
                    db worker jid sid hint data k job img result
                    Hk Hload Hrun) as [out Heq].
        exists job, img, result, out. rewrite Heq. by repeat split.
      * left. exists job. split; [reflexivity|]. split; [right; by exists img|].
        unfold _process_and_notify. rewrite Hjob, Hload, Hid. by rewrite Hrun.
    + left. exists job. split; [reflexivity|]. split; [by left|].
      unfold _process_and_notify. by rewrite Hjob, Hload.
  - left. split; [reflexivity|]. unfold _process_and_notify. by rewrite Hjob.
Qed.

(** X3.  A background run ends in one of three ways: the job is missing
    and nothing happens; the image does not decode or the pipeline raises,
    and the store is left as it was (the placeholder photo stays
    PROCESSING); or the pipeline returns a verdict and the worker is
    notified.  The store changes in the last case only. *)
Theorem background_failure_containment (db : Db) (worker : string)
    (jid : nat) (sid : Z) (hint : option string) (data : bytes) :
  (find_one (λ x, job_id x = jid) (jobs db) = None
   ∧ background db worker jid sid hint data = (db, BgJobMissing))
  ∨ (∃ job,
       find_one (λ x, job_id x = jid) (jobs db) = Some job
       ∧ (load_bgr data = None
          ∨ ∃ img,
              load_bgr data = Some img
              ∧ let expected := _current_expected_type_for_sector job sid in
                run_pipeline (_downscale_for_ocr img) expected
                  (prev_phashes (photos db) jid sid expected) = None)
       ∧ background db worker jid sid hint data = (db, BgRaised))
  ∨ (∃ job img result out,
       find_one (λ x, job_id x = jid) (jobs db) = Some job
       ∧ load_bgr data = Some img
       ∧ (let expected := _current_expected_type_for_sector job sid in
          run_pipeline (_downscale_for_ocr img) expected
            (prev_phashes (photos db) jid sid expected) = Some result)
       ∧ (background db worker jid sid hint data).2 = BgNotify out).
Proof using Type.
  apply background_outcomes.
Qed.

Lemma background_shape (db : Db) (worker : string) (jid : nat) (sid : Z)
    (hint : option string) (data : bytes) :
  (background db worker jid sid hint data).1 = db
  ∨ ∃ k j result,
      list_find (λ x, job_id x = jid) (jobs db) = Some (k, j)
      ∧ (background db worker jid sid hint data).1
        = mkDb (alter (job_after result sid) k (jobs db))
            (match find_last_index (λ p, jobId p = jid) (photos db) with
             | Some i =>
                 alter (write_verdict result
                          (result_type_of result
                             (_current_expected_type_for_sector j sid)))
                       i (photos db)
             | None => photos db
             end).
Proof using Type.
  destruct (background_outcomes db worker jid sid hint data)
    as [[_ ->]|[(job & _ & _ & ->)|(job & img & result & out & Hjob & Hload
                                     & Hrun & _)]];
    [by left..|].
  right. apply find_one_Some in Hjob as [k Hk].
  destruct (background_effect load_bgr _downscale_for_ocr run_pipeline
              db worker jid sid hint data k job img result Hk Hload Hrun)
    as [out' ->].
  by exists k, job, result.
Qed.

(** X4.  A background run touches one job and one photo at most: every
    document keeps its position and its id; a job with another id is left
    as it was; the worker phone, site, creation time, sector numbers and
    required types of every job stay; and a photo that changes is the
    most recent photo of the job, which keeps its job, sector and blob
    key. *)
Theorem background_frame (db : Db) (worker : string) (jid : nat) (sid : Z)
    (hint : option string) (data : bytes) :
  let db' := (background db worker jid sid hint data).1 in
  (∀ i j, jobs db !! i = Some j →
     ∃ j', jobs db' !! i = Some j'
           ∧ job_id j' = job_id j
           ∧ workerPhone j' = workerPhone j
           ∧ siteId j' = siteId j
           ∧ createdAt j' = createdAt j
           ∧ sector <$> sectors j' = sector <$> sectors j
           ∧ requiredTypes <$> sectors j' = requiredTypes <$> sectors j
           ∧ (job_id j ≠ jid → j' = j))
  ∧ List.length (jobs db') = List.length (jobs db)
  ∧ List.length (photos db') = List.length (photos db)
  ∧ (∀ i p, photos db !! i = Some p →
       ∃ p', photos db' !! i = Some p'
             ∧ jobId p' = jobId p
             ∧ photo_sector p' = photo_sector p
             ∧ s3Key p' = s3Key p
             ∧ s3Url p' = s3Url p
             ∧ (p' ≠ p →
                jobId p = jid
                ∧ ∀ i2 p2, photos db !! i2 = Some p2 → (i < i2)%nat →
                           jobId p2 ≠ jid)).
Proof using Type.
  intros db'. subst db'.
  destruct (background_shape db worker jid sid hint data)
    as [->|(k & j0 & result & Hk & ->)].
  - split; [intros i j Hj; exists j; by repeat split|].
    split; [reflexivity|]. split; [reflexivity|].
    intros i p Hp. exists p. by repeat split.
  - simpl. pose proof Hk as (Hlk & Hid & _)%list_find_Some.
    split; [|split; [apply length_alter|split]].
    + intros i j Hj. destruct (decide (k = i)) as [->|Hne].
      * assert (j = j0) as -> by congruence.
        exists (job_after result sid j0).
        rewrite list_lookup_alter_eq, Hlk. split; [reflexivity|].
        destruct (job_after_keeps result sid j0) as (? & ? & ? & ? & ? & ?).
        do 6 (split; [done|]). intros Hn. by destruct Hn.
      * exists j. rewrite list_lookup_alter_ne by done. by repeat split.
    + destruct (find_last_index _ (photos db)); [apply length_alter | done].
    + intros i p Hp.
      destruct (find_last_index (λ p, jobId p = jid) (photos db)) as [i0|]
        eqn:Hlast; [|exists p; by repeat split].
      destruct (find_last_index_Some _ _ _ Hlast) as (x & Hx & Hjx & Hafter).
      destruct (decide (i0 = i)) as [->|Hne].
      * assert (x = p) as -> by congruence.
        eexists. rewrite list_lookup_alter_eq, Hp. split; [reflexivity|].
        simpl. do 4 (split; [reflexivity|]). intros _. split; [exact Hjx|].
        intros i2 p2 Hp2 Hlt. by apply (Hafter i2 p2).
      * exists p. rewrite list_lookup_alter_ne by done. by repeat split.
Qed.

(** X5.  The rollup fields of the job are last-write-wins copies of the
    verdict's fields: macId and rsnId take the verdict's macId and rsn
    when these are present and truthy, azimuthDeg takes the verdict's
    azimuthDeg whenever it is present (also when it is zero), and a field
    the verdict does not carry leaves the rollup as it was. *)
Theorem rollup_last_write_wins (db : Db) (worker : string) (jid : nat)
    (sid : Z) (hint : option string) (data : bytes) (job : Job) (img : Image)
    (result : Verdict) :
  let expected := _current_expected_type_for_sector job sid in
  let fs := default ∅ (v_fields result) in
  find_one (λ x, job_id x = jid) (jobs db) = Some job →
  load_bgr data = Some img →
  run_pipeline (_downscale_for_ocr img) expected
    (prev_phashes (photos db) jid sid expected) = Some result →
  ∃ job',
    find_one (λ x, job_id x = jid)
      (jobs (background db worker jid sid hint data).1) = Some job'
    ∧ macId job'
      = match fs !! "macId" with
        | Some v => if value_truthy v then Some v else macId job
        | None => macId job
        end
    ∧ rsnId job'
      = match fs !! "rsn" with
        | Some v => if value_truthy v then Some v else rsnId job
        | None => rsnId job
        end
    ∧ azimuthDeg job'
      = match fs !! "azimuthDeg" with
        | Some v => Some v
        | None => azimuthDeg job
        end.
Proof using Type.
  intros expected fs Hjob Hload Hrun.
  apply find_one_Some in Hjob as [k Hk].
  destruct (background_effect load_bgr _downscale_for_ocr run_pipeline
              db worker jid sid hint data k job img result Hk Hload Hrun)
    as [out ->].
  exists (job_after result sid job). simpl.
  split; [apply (find_one_after _ _ _ _ _ Hk); rewrite job_after_id;
          by apply list_find_holds in Hk|].
  destruct (job_after_rollups result sid job) as (-> & -> & ->).
  rewrite promote_job_rollups. fold fs. simpl.
  destruct (rollup_updates_lookup fs) as (-> & -> & ->).
  destruct (fs !! "macId") as [m|]; destruct (fs !! "rsn") as [r|];
    destruct (fs !! "azimuthDeg") as [a|]; simpl;
    try destruct (value_truthy m); try destruct (value_truthy r);
    by repeat split.
Qed.

(** X6.  A background run that obtains a verdict leaves the job DONE
    exactly when it was DONE before or all its sectors are done after the
    run: the job status never goes back from DONE, and it is otherwise
    left as it was. *)
Theorem background_status_monotone (db : Db) (worker : string) (jid : nat)
    (sid : Z) (hint : option string) (data : bytes) (job : Job) (img : Image)
    (result : Verdict) :
  let expected := _current_expected_type_for_sector job sid in
  find_one (λ x, job_id x = jid) (jobs db) = Some job →
  load_bgr data = Some img →
  run_pipeline (_downscale_for_ocr img) expected
    (prev_phashes (photos db) jid sid expected) = Some result →
  ∃ job',
    find_one (λ x, job_id x = jid)
      (jobs (background db worker jid sid hint data).1) = Some job'
    ∧ (job_status job' = DONE ↔
       job_status job = DONE ∨ all_sectors_done (sectors job') = true)
    ∧ (job_status job' = job_status job ∨ job_status job' = DONE).
Proof using Type.
  intros expected Hjob Hload Hrun.
  apply find_one_Some in Hjob as [k Hk].
  destruct (background_effect load_bgr _downscale_for_ocr run_pipeline
              db worker jid sid hint data k job img result Hk Hload Hrun)
    as [out ->].
  exists (job_after result sid job). simpl.
  split; [apply (find_one_after _ _ _ _ _ Hk); rewrite job_after_id;
          by apply list_find_holds in Hk|].
  rewrite job_after_status.
  destruct (all_sectors_done (sectors (job_after result sid job))).
  - split; [split; [by right | done] | by right].
  - split; [|by left]. split; [by left | by intros [?|?]].
Qed.

Lemma webhook_effect (db : Db) (request : Request) :
  let r := webhook db request in
  sectors <$> jobs r.1.1 = sectors <$> jobs db
  ∧ job_id <$> jobs r.1.1 = job_id <$> jobs db
  ∧ workerPhone <$> jobs r.1.1 = workerPhone <$> jobs db
  ∧ ((photos r.1.1 = photos db ∧ r.2 = None)
     ∨ ∃ p t,
         r.2 = Some t
         ∧ photos r.1.1 = (photos db ++ [p])%list
         ∧ photo_status p = Some "PROCESSING"
         ∧ phash p = None
         ∧ jobId p = task_job t
         ∧ photo_sector p = task_sector t
         ∧ photo_type p = task_hint t).
Proof using Type.
  set (frame := λ js : list Job,
         sectors <$> js = sectors <$> jobs db
         ∧ job_id <$> js = job_id <$> jobs db
         ∧ workerPhone <$> js = workerPhone <$> jobs db).
  assert (Hrefl : frame (jobs db)) by done.
  assert (Hupd : ∀ (P : Job → Prop) (H : ∀ x, Decision (P x)) st js,
            frame js → frame (update_one P (set_job_status st) js)).
  { intros P ? st js (H1 & H2 & H3). unfold frame.
    rewrite <- H1, <- H2, <- H3. repeat split; by apply update_one_fmap. }
  intros r. subst r. unfold whatsapp_webhook, insert_photo.
  repeat case_match; simplify_eq/=;
    match goal with
    | |- sectors <$> ?X = _ ∧ _ =>
        assert (Hfr : frame X) by (repeat apply Hupd; exact Hrefl)
    end;
    destruct Hfr as (? & ? & ?);
    (split; [assumption|]); (split; [assumption|]); (split; [assumption|]);
    first [ left; by split
          | right; eexists _, _; split; [reflexivity|]; by repeat split ].
Qed.


(** X8.  The placeholder the webhook inserts is the record the background
    task resolves: when the webhook schedules a task and the pipeline
    returns a verdict for it, the photos after the whole event are the
    photos before it followed by the placeholder overwritten with the
    verdict's type, hash, text, fields, checks, status and reasons. *)
Theorem placeholder_is_resolved (db db1 : Db) (request : Request)
    (reply : Reply) (t : Task) (job : Job) (img : Image) (result : Verdict) :
  let expected := _current_expected_type_for_sector job (task_sector t) in
  webhook db request = (db1, reply, Some t) →
  find_one (λ x, job_id x = task_job t) (jobs db1) = Some job →
  load_bgr (task_data t) = Some img →
  run_pipeline (_downscale_for_ocr img) expected
    (prev_phashes (photos db1) (task_job t) (task_sector t) expected)
  = Some result →
  ∃ p,
    photos db1 = (photos db ++ [p])%list
    ∧ photo_status p = Some "PROCESSING"
    ∧ photos (event db request)
      = (photos db
         ++ [mkPhoto (task_job t) (task_sector t)
               (result_type_of result expected) (s3Key p) (s3Url p)
               (v_phash result) (v_ocrText result)
               (default ∅ (v_fields result)) (default ∅ (v_checks result))
               (v_status result) (default [] (v_reason result))])%list.
Proof using Type.
  intros expected Hweb Hjob Hload Hrun.
  pose proof (webhook_effect db request) as Hframe.
  simpl in Hframe. rewrite Hweb in Hframe. simpl in Hframe.
  destruct Hframe as (_ & _ & _ & [[_ ?]|(p & t' & Ht & Hps & Hst & _ & Hpj
                                          & Hpsec & _)]); [done|].
  simplify_eq. exists p. split; [exact Hps|]. split; [exact Hst|].
  unfold process_event. rewrite Hweb.
  apply find_one_Some in Hjob as [k Hk].
  destruct (background_effect load_bgr _downscale_for_ocr run_pipeline
              db1 (task_worker t') (task_job t') (task_sector t')
              (Some (task_hint t')) (task_data t') k job img result
              Hk Hload Hrun) as [out ->].
  simpl. rewrite Hps.
  rewrite (find_last_index_snoc (λ p0, jobId p0 = task_job t') (photos db) p
             Hpj).
  replace (List.length (photos db)) with (List.length (photos db) + 0)%nat
    by lia.
  rewrite alter_app_r. simpl. unfold write_verdict.
  by rewrite Hpj, Hpsec.
Qed.

(** X10.  Adding a sector never changes a job's status, so a job that is
    no longer in flight stays out of the webhook's reach: when no job of
    the worker is in flight and the request adds a new sector to an
    existing job, the job keeps its status and now holds the sector, yet
    every message of that worker is still answered with the
    no-active-job notice and changes nothing. *)
Theorem extending_finished_job_stays_finished (db : Db) (payload : CreateJob)
    (base : Job) :
  let worker := strip (cj_workerPhone payload) in
  let site := strip (cj_siteId payload) in
  let sid := cj_sector payload in
  (∀ l n, utils_sector_by_id l n = sector_by_id l n) →
  NoDup (job_id <$> jobs db) →
  worker ≠ "" → site ≠ "" →
  find_one (λ j, workerPhone j = normalize_phone worker ∧ siteId j = site)
    (jobs db) = Some base →
  sector_by_id (sectors base) sid = None →
  (∀ j, j ∈ jobs db → workerPhone j = normalize_phone worker → ¬ in_flight j) →
  ∃ db' updated,
    create db payload = (db', inr updated)
    ∧ job_id updated = job_id base
    ∧ job_status updated = job_status base
    ∧ job_status updated = DONE
    ∧ is_Some (sector_by_id (sectors updated) sid)
    ∧ ∀ form,
        normalize_phone
          (py_or_str (py_or (form_From form) (form_WaId form)) "")
        = normalize_phone worker →
        webhook db' (FormBody form) = (db', NoActiveJob, None).
Proof using Type.
  intros worker site sid Hutils Hnd Hw Hsite Hbase Hs Hidle.
  unfold create_or_extend_job. fold worker site sid.
  rewrite decide_False by (by intros [?|?]).
  rewrite Hbase, Hutils, Hs.
  destruct (find_by_id_of_found _ _ _ Hnd Hbase) as [k Hk].
  set (f := λ j : Job,
         set_sectors
           (sectors j
            ++ [mkSector sid (build_required_types_for_sector sid) 0 PENDING])%list
           j).
  rewrite (update_one_found _ _ _ _ _ Hk).
  rewrite (find_one_after f _ _ k base Hk eq_refl).
  pose proof (find_one_holds _ _ _ Hbase) as [[Hphone _] Hin].
  assert (Hdone : job_status base = DONE).
  { pose proof (Hidle base Hin Hphone) as Hn. unfold in_flight in Hn.
    destruct (job_status base); [destruct Hn; by left
                                | destruct Hn; by right | reflexivity]. }
  eexists _, (f base). split; [reflexivity|].
  split; [reflexivity|]. split; [reflexivity|]. split; [exact Hdone|].
  split.
  { simpl. unfold sector_by_id, find_one.
    destruct (list_find (λ s, sector s = sid)
                (sectors base
                 ++ [mkSector sid (build_required_types_for_sector sid) 0
                       PENDING])%list) eqn:Hl; [by eexists|].
    apply list_find_None, Forall_app in Hl as [_ Hl].
    inversion Hl as [|? ? Hh _]. exfalso. apply Hh. reflexivity. }
  intros form Hfrom. unfold whatsapp_webhook. simpl. rewrite Hfrom.
  assert (Hnone : find_one
            (λ j, workerPhone j = normalize_phone worker ∧ in_flight j)
            (alter f k (jobs db)) = None).
  { apply find_one_None. intros x Hx [Hxp Hxf].
    apply elem_of_alter_job in Hx as [Hx|(j & Hj & ->)].
    - by apply (Hidle x Hx Hxp).
    - apply (Hidle j); [by eapply list_elem_of_lookup_2 | exact Hxp | exact Hxf]. }
  by rewrite Hnone.
Qed.

(** X11.  The direct upload changes a sector list only after it saved
    the photo: whenever it answers decode_failed, pipeline_crashed or
    save_failed, the photo collection is as before the request, and every
    job has the sectors and the status the find-or-create step left it
    with (fields the pipeline extracted may already have been copied to
    the job when the save fails). *)
Theorem upload_error_leaves_sectors (db : Db) (w site : string) (sid : Z)
    (data : bytes) :
  let r := upload db w site sid data in
  let js0 := (debug_ensure_job (jobs db) w site sid).1 in
  r.2 = DecodeFailed ∨ r.2 = PipelineCrashed ∨ r.2 = SaveFailed →
  photos r.1 = photos db
  ∧ sectors <$> jobs r.1 = sectors <$> js0
  ∧ job_status <$> jobs r.1 = job_status <$> js0.
Proof using Type.
  intros r js0. subst r js0.
  assert (Hprom : ∀ result jid js,
            sectors <$> promote_fields result jid js = sectors <$> js
            ∧ job_status <$> promote_fields result jid js = job_status <$> js).
  { intros result jid js. unfold promote_fields. case_decide; [done|].
    split; apply update_one_fmap; by intros []. }
  unfold debug_upload, insert_photo.
  destruct (debug_ensure_job (jobs db) w site sid) as [js0 [job|]]; simpl;
    [|by intros [?|[?|?]]].
  destruct (load_bgr data) as [img|]; [|done].
  destruct (run_pipeline _ _ _) as [result|]; [|done].
  destruct (put_bytes _ _) as [url|];
    [|intros _; simpl; split; [done | apply Hprom]].
  destruct (photo_insert_ok _ _);
    [|intros _; simpl; split; [done | apply Hprom]].
  destruct (if decide (advance_condition result _) then _ else _)
    as [js2 [job2|]]; simpl; by intros [?|[?|?]].
Qed.
End RouteMore.

(** ** Instances of the further properties *)


(** X5 at the worked example: the MAC identifier and the zero azimuth
    reach the job, the serial number stays unset. *)
Lemma rollup_last_write_wins_witness :
  ∃ job',
    find_one (λ x, job_id x = 1%nat)
      (jobs (_process_and_notify ex_load ex_downscale
               (ex_pipeline pass_with_fields) ex_db "9999" 1 1
               (Some "LABELLING") []).1) = Some job'
    ∧ macId job' = Some (VStr "AA:BB:CC")
    ∧ rsnId job' = None
    ∧ azimuthDeg job' = Some (VNum 0).
Proof.
  destruct (rollup_last_write_wins ex_load ex_downscale
              (ex_pipeline pass_with_fields) ex_db "9999" 1%nat 1
              (Some "LABELLING") [] ex_job tt pass_with_fields
              eq_refl eq_refl eq_refl) as (job' & Hjob & Hmac & Hrsn & Haz).
  exists job'. split; [exact Hjob|]. split; [exact Hmac|].
  split; [exact Hrsn | exact Haz].
Defined.

(** X6 at the worked example. *)
Lemma background_status_monotone_witness :
  ∃ job',
    find_one (λ x, job_id x = 1%nat)
      (jobs (_process_and_notify ex_load ex_downscale
               (ex_pipeline pass_labelling) ex_db "9999" 1 1
               (Some "LABELLING") []).1) = Some job'
    ∧ (job_status job' = DONE ↔
       job_status ex_job = DONE ∨ all_sectors_done (sectors job') = true)
    ∧ (job_status job' = job_status ex_job ∨ job_status job' = DONE).
Proof.
  apply (background_status_monotone ex_load ex_downscale
           (ex_pipeline pass_labelling) ex_db "9999" 1%nat 1
           (Some "LABELLING") [] ex_job tt pass_labelling);
    reflexivity.
Defined.

(** X8 at the worked example: the photo event on a store without photos,
    answered by a LABELLING pass. *)
Lemma placeholder_is_resolved_witness :
  ∃ p,
    photos (whatsapp_webhook ex_normalize_phone ex_fetch_media
              ex_new_image_key ex_put_bytes ex_insert_ok
              (mkDb [ex_job] []) ex_photo_event).1.1
    = (photos (mkDb [ex_job] []) ++ [p])%list
    ∧ photo_status p = Some "PROCESSING"
    ∧ photos (process_event ex_load ex_downscale (ex_pipeline pass_labelling)
                ex_normalize_phone ex_fetch_media ex_new_image_key
                ex_put_bytes ex_insert_ok (mkDb [ex_job] []) ex_photo_event)
      = (photos (mkDb [ex_job] [])
         ++ [mkPhoto (task_job ex_task) (task_sector ex_task)
               (result_type_of pass_labelling
                  (_current_expected_type_for_sector ex_job
                     (task_sector ex_task)))
               (s3Key p) (s3Url p)
               (v_phash pass_labelling) (v_ocrText pass_labelling)
               (default ∅ (v_fields pass_labelling))
               (default ∅ (v_checks pass_labelling))
               (v_status pass_labelling)
               (default [] (v_reason pass_labelling))])%list.
Proof.
  apply (placeholder_is_resolved ex_load ex_downscale
           (ex_pipeline pass_labelling) ex_normalize_phone ex_fetch_media
           ex_new_image_key ex_put_bytes ex_insert_ok
           (mkDb [ex_job] []) _ ex_photo_event GotThePhoto ex_task ex_job tt
           pass_labelling); reflexivity.
Defined.

(** X9 on an empty collection: the job is created once. *)
Lemma debug_ensure_job_idempotent_witness :
  debug_ensure_job
    [mkJob 1 "7000" "S9" [debug_sector_block 3] IN_PROGRESS
       None None None None] "7000" "S9" 3
  = ([mkJob 1 "7000" "S9" [debug_sector_block 3] IN_PROGRESS
        None None None None],
     Some (mkJob 1 "7000" "S9" [debug_sector_block 3] IN_PROGRESS
             None None None None))
  ∧ (List.length (@nil Job)
     ≤ List.length [mkJob 1 "7000" "S9" [debug_sector_block 3] IN_PROGRESS
                      None None None None]
     ≤ List.length (@nil Job) + 1)%nat
  ∧ is_Some (sector_by_id [debug_sector_block 3] 3).
Proof.
  apply (debug_ensure_job_idempotent [] _ "7000" "S9" 3).
  - apply NoDup_nil_2.
  - reflexivity.
Defined.

(** X10 at a finished job that is given sector 2. *)
Lemma extending_finished_job_stays_finished_witness :
  ∃ db' updated,
    create_or_extend_job ex_normalize_phone ex_build_required_types
      sector_by_id ex_utcnow (mkDb [ex_job_finished] [])
      (mkCreateJob "9999" "S1" 2) = (db', inr updated)
    ∧ job_id updated = job_id ex_job_finished
    ∧ job_status updated = job_status ex_job_finished
    ∧ job_status updated = DONE
    ∧ is_Some (sector_by_id (sectors updated) 2)
    ∧ ∀ form,
        ex_normalize_phone
          (py_or_str (py_or (form_From form) (form_WaId form)) "")
        = ex_normalize_phone (strip "9999") →
        whatsapp_webhook ex_normalize_phone ex_fetch_media ex_new_image_key
          ex_put_bytes ex_insert_ok db' (FormBody form)
        = (db', NoActiveJob, None).
Proof.
  apply (extending_finished_job_stays_finished ex_normalize_phone
           ex_fetch_media ex_new_image_key ex_put_bytes ex_insert_ok
           ex_build_required_types sector_by_id ex_utcnow
           (mkDb [ex_job_finished] []) (mkCreateJob "9999" "S1" 2)
           ex_job_finished).
  - intros l n. reflexivity.
  - apply NoDup_singleton.
  - discriminate.
  - discriminate.
  - reflexivity.
  - reflexivity.
  - intros j ->%list_elem_of_singleton _ [Hp|Hp]; discriminate Hp.
Defined.

(** X11 at the worked example with the blob store down. *)
Lemma upload_error_leaves_sectors_witness :
  photos (debug_upload ex_load (ex_pipeline pass_with_fields)
            ex_new_image_key ex_put_bytes_down ex_insert_ok
            ex_db "9999" "S1" 1 []).1 = photos ex_db
  ∧ sectors <$> jobs (debug_upload ex_load (ex_pipeline pass_with_fields)
                        ex_new_image_key ex_put_bytes_down ex_insert_ok
                        ex_db "9999" "S1" 1 []).1
    = sectors <$> (debug_ensure_job (jobs ex_db) "9999" "S1" 1).1
  ∧ job_status <$> jobs (debug_upload ex_load (ex_pipeline pass_with_fields)
                           ex_new_image_key ex_put_bytes_down ex_insert_ok
                           ex_db "9999" "S1" 1 []).1
    = job_status <$> (debug_ensure_job (jobs ex_db) "9999" "S1" 1).1.
Proof.
  apply (upload_error_leaves_sectors ex_load (ex_pipeline pass_with_fields)
           ex_new_image_key ex_put_bytes_down ex_insert_ok
           ex_db "9999" "S1" 1 []).
  right. right. reflexivity.
Defined.
